(** * Honda Odyssey inventory tool: the flattening transform and the
      distance helpers, embedded from [main.py] and [util.py].

    The Python code is embedded shallowly.  Every function of the source
    that the properties below talk about is a Rocq function of the same
    name; a Python value is a term of [pyval]; a call that can raise
    returns a [result]; the generator [iter_inventory_rows] returns the
    rows it yields together with the exception that ended it, if any.
    Python floats are IEEE-754 binary64 numbers, taken from the standard
    library's [spec_float] with its correctly rounded operations; the
    functions of the C library behind [math.sin], [math.cos], [math.atan2]
    and [**] are a parameter ([libm]), and so is [repr] on floats. *)

From Stdlib Require Import ZArith Lia Bool List String Ascii SpecFloat.
From Stdlib Require Import DecimalString DecimalZ DecimalPos.
From stdpp Require Import base gmap strings.

Local Open Scope Z_scope.
Local Open Scope string_scope.
Import ListNotations.

(** ** Exceptions and results *)

Inductive exn : Set :=
| AttributeError
| TypeError
| ValueError
| OverflowError
| ZeroDivisionError.

Inductive result (A : Type) : Type :=
| Return (a : A)
| Raise (e : exn).

Arguments Return {A} a.
Arguments Raise {A} e.

Definition bind {A B : Type} (r : result A) (k : A -> result B) : result B :=
  match r with
  | Return a => k a
  | Raise e => Raise e
  end.

Notation "'let!' x ':=' r 'in' k" := (bind r (fun x => k))
  (at level 10, x name, r at level 100, k at level 200).

(** ** Python values

    The values [json.loads] produces.  A [str] is a sequence of code
    points; the model covers the code points below 256, one [ascii] each
    (so ["²"], U+00B2, is the one-character string of code 178).  A [dict]
    lists its entries in insertion order and a lookup takes the first
    entry of the key. *)

#[warnings="-register-all"]
Inductive pyval : Type :=
| PNone
| PBool (b : bool)
| PInt (z : Z)
| PFloat (f : spec_float)
| PStr (s : string)
| PList (l : list pyval)
| PDict (kvs : list (string * pyval)).

(** binary64 *)
Definition prec : Z := 53.
Definition emax : Z := 1024.

Definition is_nan (f : spec_float) : bool :=
  match f with S754_nan => true | _ => false end.
Definition is_inf (f : spec_float) : bool :=
  match f with S754_infinity _ => true | _ => false end.
Definition is_finite (f : spec_float) : bool :=
  match f with S754_zero _ | S754_finite _ _ _ => true | _ => false end.
Definition is_zero (f : spec_float) : bool :=
  match f with S754_zero _ => true | _ => false end.

(** [bool(v)]: the truth value of [v], as [not], [or] and [if] take it. *)
Definition truthy (v : pyval) : bool :=
  match v with
  | PNone => false
  | PBool b => b
  | PInt z => negb (Z.eqb z 0)
  | PFloat f => negb (is_zero f)
  | PStr s => negb (String.eqb s "")
  | PList l => match l with [] => false | _ => true end
  | PDict kvs => match kvs with [] => false | _ => true end
  end.

(** [a or b], with [b] already evaluated (the operands here are dictionary
    lookups and literals, which have no effect). *)
Definition py_or (a b : pyval) : pyval := if truthy a then a else b.

Fixpoint dict_lookup (kvs : list (string * pyval)) (k : string) : option pyval :=
  match kvs with
  | [] => None
  | (k', v) :: rest => if String.eqb k' k then Some v else dict_lookup rest k
  end.

(** [v.get(k, d)]: only a dict has the method. *)
Definition py_get (v : pyval) (k : string) (d : pyval) : result pyval :=
  match v with
  | PDict kvs => Return (match dict_lookup kvs k with Some x => x | None => d end)
  | _ => Raise AttributeError
  end.

(** [for x in v]: the elements a [for] loop visits.  A list gives its
    elements, a string its characters, a dict its keys; the other values
    are not iterable. *)
Fixpoint chars (s : string) : list pyval :=
  match s with
  | EmptyString => []
  | String c rest => PStr (String c EmptyString) :: chars rest
  end.

Definition py_iter (v : pyval) : result (list pyval) :=
  match v with
  | PList l => Return l
  | PStr s => Return (chars s)
  | PDict kvs => Return (map (fun kv => PStr (fst kv)) kvs)
  | _ => Raise TypeError
  end.

(** ** [str] and [repr] *)

Definition str_of_Z (z : Z) : string := NilZero.string_of_int (Z.to_int z).

Definition hex_digit (n : N) : ascii :=
  ascii_of_N (if (n <? 10)%N then 48 + n else 87 + n)%N.

Definition printable (c : ascii) : bool :=
  let n := N_of_ascii c in
  negb ((n <? 32)%N || ((127 <=? n)%N && (n <=? 160)%N) || (n =? 173)%N).

Fixpoint contains (c : ascii) (s : string) : bool :=
  match s with
  | EmptyString => false
  | String c' rest => Ascii.eqb c c' || contains c rest
  end.

Definition repr_char (quote c : ascii) : string :=
  if Ascii.eqb c "\" then "\\"
  else if Ascii.eqb c quote then String "\" (String quote "")
  else if Ascii.eqb c "010" then "\n"
  else if Ascii.eqb c "013" then "\r"
  else if Ascii.eqb c "009" then "\t"
  else if printable c then String c ""
  else let n := N_of_ascii c in
       String "\" (String "x" (String (hex_digit (n / 16)) (String (hex_digit (n mod 16)) ""))).

Fixpoint repr_chars (quote : ascii) (s : string) : string :=
  match s with
  | EmptyString => ""
  | String c rest => repr_char quote c ++ repr_chars quote rest
  end.

Definition repr_str (s : string) : string :=
  let quote : ascii :=
    if contains "'" s && negb (contains "034" s) then "034"%char else "'"%char in
  String quote (repr_chars quote s ++ String quote "").

Fixpoint join (sep : string) (l : list string) : string :=
  match l with
  | [] => ""
  | [x] => x
  | x :: rest => x ++ sep ++ join sep rest
  end.

Section Repr.
(** [repr] of a float (the shortest decimal string that reads back as the
    same float) belongs to the interpreter; it is a parameter here. *)
Variable float_repr : spec_float -> string.

Fixpoint py_repr (v : pyval) : string :=
  match v with
  | PNone => "None"
  | PBool true => "True"
  | PBool false => "False"
  | PInt z => str_of_Z z
  | PFloat f => float_repr f
  | PStr s => repr_str s
  | PList l => "[" ++ join ", " (map py_repr l) ++ "]"
  | PDict kvs =>
      "{" ++ join ", " (map (fun kv => repr_str (fst kv) ++ ": " ++ py_repr (snd kv)) kvs) ++ "}"
  end.

(** [str(v)] *)
Definition py_str (v : pyval) : string :=
  match v with
  | PStr s => s
  | _ => py_repr v
  end.
End Repr.

(** ** Floats: conversion from [int] and from decimal text, [",.0f"] *)

Definition SF64mul := SFmul prec emax.
Definition SF64add := SFadd prec emax.
Definition SF64sub := SFsub prec emax.
Definition SF64div := SFdiv prec emax.
Definition SF64sqrt := SFsqrt prec emax.

(** [float(z)] of an [int]: the nearest binary64 number, ties to even;
    [OverflowError] when that is out of range. *)
Definition float_of_int (z : Z) : result spec_float :=
  let f := binary_normalize prec emax z 0 false in
  if is_inf f then Raise OverflowError else Return f.

(** The binary64 number nearest to [n / 10^k] (ties to even), infinite when
    out of range: what [float] makes of the decimal text of [n] with the
    point before its last [k] digits. *)
Definition float_of_decimal (n : N) (k : nat) : spec_float :=
  match n with
  | N0 => S754_zero false
  | Npos p => SF64div (S754_finite false p 0) (S754_finite false (Z.to_pos (10 ^ Z.of_nat k)) 0)
  end.

(** The integer nearest to [m * 2^e], ties to the even one. *)
Definition round_half_even (m : positive) (e : Z) : Z :=
  match e with
  | Zneg p =>
      let d := Z.pow_pos 2 p in
      let q := Z.pos m / d in
      match (2 * (Z.pos m mod d)) ?= d with
      | Lt => q
      | Eq => if Z.even q then q else q + 1
      | Gt => q + 1
      end
  | _ => Z.pos m * 2 ^ e
  end.

(** Commas between groups of three digits, on the digits listed from the
    last to the first. *)
Fixpoint group_rev (l : list ascii) : list ascii :=
  match l with
  | a :: b :: c :: ((_ :: _) as rest) => a :: b :: c :: ","%char :: group_rev rest
  | _ => l
  end.

Definition group_thousands (digits : string) : string :=
  string_of_list_ascii (rev (group_rev (rev (list_ascii_of_string digits)))).

(** [format(f, ",.0f")] of a float: no digit after the point, the value
    rounded to the nearest integer (ties to even) from its exact binary
    value, a comma every three digits, the sign kept even on a zero. *)
Definition format_comma_0f (f : spec_float) : string :=
  match f with
  | S754_nan => "nan"
  | S754_infinity s => (if s then "-" else "") ++ "inf"
  | S754_zero s => (if s then "-" else "") ++ "0"
  | S754_finite s m e =>
      (if s then "-" else "") ++ group_thousands (str_of_Z (round_half_even m e))
  end.

(** ** The [str] methods of [format_price] *)

(** [c.isdigit()] on the code points below 256: the decimal digits and the
    superscripts U+00B2, U+00B3 and U+00B9. *)
Definition isdigit_char (c : ascii) : bool :=
  let n := N_of_ascii c in
  ((48 <=? n)%N && (n <=? 57)%N) || (n =? 178)%N || (n =? 179)%N || (n =? 185)%N.

Fixpoint all_chars (p : ascii -> bool) (s : string) : bool :=
  match s with
  | EmptyString => true
  | String c rest => p c && all_chars p rest
  end.

(** [s.isdigit()]: at least one character, and all of them digits. *)
Definition isdigit (s : string) : bool :=
  match s with
  | EmptyString => false
  | _ => all_chars isdigit_char s
  end.

(** [s.replace(".", "", 1)]: [s] without its first point. *)
Fixpoint remove_first_dot (s : string) : string :=
  match s with
  | EmptyString => EmptyString
  | String c rest => if Ascii.eqb c "." then rest else String c (remove_first_dot rest)
  end.

Definition is_ascii_digit (c : ascii) : bool :=
  let n := N_of_ascii c in (48 <=? n)%N && (n <=? 57)%N.

(** Value of a string of ASCII digits read after the number [acc]. *)
Fixpoint digits_value (acc : N) (s : string) : N :=
  match s with
  | EmptyString => acc
  | String c rest => digits_value (10 * acc + (N_of_ascii c - 48))%N rest
  end.

Fixpoint before_dot (s : string) : string :=
  match s with
  | EmptyString => EmptyString
  | String c rest => if Ascii.eqb c "." then EmptyString else String c (before_dot rest)
  end.

Fixpoint after_dot (s : string) : string :=
  match s with
  | EmptyString => EmptyString
  | String c rest => if Ascii.eqb c "." then rest else after_dot rest
  end.

(** [float(s)] for plain decimal text: ASCII digits around at most one
    point, at least one digit.  [float] accepts more (signs, exponents,
    blanks, [inf], [nan]), none of which can occur in a string whose
    characters without the first point are all digits, the only strings
    [format_price] converts; a digit character that is not a decimal digit
    makes [float] raise [ValueError]. *)
Definition float_of_str (s : string) : result spec_float :=
  let i := before_dot s in
  let f := after_dot s in
  if all_chars is_ascii_digit (i ++ f) && negb (String.eqb (i ++ f) "")
  then Return (float_of_decimal (digits_value 0 (i ++ f)) (String.length f))
  else Raise ValueError.

(** ** [main.py] *)

Section Main.
Context (float_repr : spec_float -> string).

(** [format_price(price)] *)
Definition format_price (price : pyval) : result string :=
  match price with
  | PNone => Return "N/A"
  | PStr s =>
      if isdigit (remove_first_dot s) then
        let! f := float_of_str s in
        Return ("$" ++ format_comma_0f f)
      else Return (py_str float_repr price)
  | PInt z =>
      let! f := float_of_int z in
      Return ("$" ++ format_comma_0f f)
  | PBool b =>
      let! f := float_of_int (if b then 1 else 0) in
      Return ("$" ++ format_comma_0f f)
  | PFloat f => Return ("$" ++ format_comma_0f f)
  | _ => Return (py_str float_repr price)
  end.

(** [build_dealer_map(data)]: the loop body, then the loop.  Each dealer
    record is the dict the source builds, with its nine keys. *)
Definition add_dealer (dealer_map : gmap string pyval) (dealer : pyval)
  : result (gmap string pyval) :=
  let! number := py_get dealer "DealerNumber" PNone in
  let dealer_num := py_str float_repr number in
  let! name := py_get dealer "Name" (PStr "") in
  let! address1 := py_get dealer "Address1" (PStr "") in
  let! city := py_get dealer "City" (PStr "") in
  let! state := py_get dealer "State" (PStr "") in
  let! postal := py_get dealer "ZipCode" (PStr "") in
  let! phone := py_get dealer "Phone" (PStr "") in
  let! lat := py_get dealer "Latitude" PNone in
  let! lon := py_get dealer "Longitude" PNone in
  let! retail_url := py_get dealer "OnlineRetailingURL" (PStr "") in
  Return (<[dealer_num :=
              PDict [("name", name); ("address1", address1); ("city", city);
                     ("state", state); ("postal", postal); ("phone", phone);
                     ("lat", lat); ("lon", lon); ("retail_url", retail_url)]]>
            dealer_map).

Fixpoint add_dealers (dealer_map : gmap string pyval) (dealers : list pyval)
  : result (gmap string pyval) :=
  match dealers with
  | [] => Return dealer_map
  | dealer :: rest =>
      let! dealer_map' := add_dealer dealer_map dealer in
      add_dealers dealer_map' rest
  end.

Definition build_dealer_map (data : pyval) : result (gmap string pyval) :=
  let! dealers := py_get data "dealers" (PList []) in
  let! dealers := py_iter dealers in
  add_dealers ∅ dealers.

(** A row, the dict [iter_inventory_rows] yields, by its fifteen keys. *)
Record row : Type := Row {
  dealer : pyval;
  address1 : pyval;
  city : pyval;
  state : pyval;
  postal : pyval;
  phone : pyval;
  lat : pyval;
  lon : pyval;
  retail_url : pyval;
  trim : pyval;
  inv_type : pyval;
  color : pyval;
  vin : pyval;
  price : string;
  interior_color : pyval
}.

(** A generator, run to its end: the rows it yields, in order, and how
    it ends, by a value or by an exception. *)
Definition gen (A : Type) : Type := (list row * result A)%type.

Definition lift {A : Type} (r : result A) : gen A := ([], r).

Definition yield (r : row) : gen unit := ([r], Return tt).

Definition gen_bind {A B : Type} (g : gen A) (k : A -> gen B) : gen B :=
  match g with
  | (rows, Return a) => let (rows', r) := k a in ((rows ++ rows')%list, r)
  | (rows, Raise e) => (rows, Raise e)
  end.

Fixpoint for_each {A : Type} (l : list A) (body : A -> gen unit) : gen unit :=
  match l with
  | [] => lift (Return tt)
  | x :: rest => gen_bind (body x) (fun _ => for_each rest body)
  end.

(** The inner loop of [iter_inventory_rows], over one VIN entry. *)
Definition vin_row (dealer_info item_dealer item_trim item_inv_type item_color : pyval)
    (item_price : string) (item_interior_color vin_entry : pyval) : gen unit :=
  gen_bind (lift (py_get vin_entry "VIN" PNone)) (fun vin =>
  if negb (truthy vin) then lift (Return tt)
  else
    gen_bind (lift (
      let! address1 := py_get dealer_info "address1" (PStr "") in
      let! city := py_get dealer_info "city" (PStr "") in
      let! state := py_get dealer_info "state" (PStr "") in
      let! postal := py_get dealer_info "postal" (PStr "") in
      let! phone := py_get dealer_info "phone" (PStr "") in
      let! lat := py_get dealer_info "lat" (PStr "") in
      let! lon := py_get dealer_info "lon" (PStr "") in
      let! retail_url := py_get dealer_info "retail_url" (PStr "") in
      Return (Row item_dealer address1 city state postal phone lat lon retail_url
                  item_trim item_inv_type item_color vin item_price
                  item_interior_color))) yield).

(** The outer loop of [iter_inventory_rows], over one inventory item. *)
Definition item_rows (dealer_map : gmap string pyval) (item : pyval) : gen unit :=
  gen_bind (lift (py_get item "DealerNumber" PNone)) (fun number =>
  let dealer_num := py_str float_repr number in
  let dealer_info := default (PDict []) (dealer_map !! dealer_num) in
  gen_bind (lift (py_get dealer_info "name" (PStr "Unknown dealer"))) (fun dealer =>
  gen_bind (lift (py_get item "ExteriorColor" PNone)) (fun exterior =>
  gen_bind (lift (py_get item "ModelBaseColor" PNone)) (fun base =>
  let color := py_or exterior (py_or base (PStr "(Unknown color)")) in
  gen_bind (lift (py_get item "ModelMSRP" PNone)) (fun msrp =>
  gen_bind (lift (format_price msrp)) (fun price =>
  gen_bind (lift (py_get item "ModelTrim" (PStr ""))) (fun trim =>
  gen_bind (lift (py_get item "InventoryType" (PStr ""))) (fun inv_type =>
  gen_bind (lift (py_get item "InteriorColor" (PStr ""))) (fun interior_color =>
  gen_bind (lift (py_get item "VINs" (PList []))) (fun vins =>
  gen_bind (lift (py_iter vins)) (fun vin_entries =>
  for_each vin_entries
    (vin_row dealer_info dealer trim inv_type color price interior_color)))))))))))).

(** [iter_inventory_rows(data)], run to its end. *)
Definition iter_inventory_rows (data : pyval) : gen unit :=
  gen_bind (lift (build_dealer_map data)) (fun dealer_map =>
  gen_bind (lift (py_get data "inventory" (PList []))) (fun inventory =>
  gen_bind (lift (py_iter inventory)) (fun items =>
  for_each items (item_rows dealer_map)))).
End Main.

(** ** [util.py] *)

(** The C library functions the [math] module and [float.__pow__] call.
    Their values are the platform's; the model takes them as given. *)
Record libm : Type := Libm {
  c_sin : spec_float -> spec_float;
  c_cos : spec_float -> spec_float;
  c_atan2 : spec_float -> spec_float -> spec_float;
  c_pow : spec_float -> spec_float -> spec_float
}.

Definition SF_one : spec_float := Eval vm_compute in binary_normalize prec emax 1 0 false.
Definition SF_two : spec_float := Eval vm_compute in binary_normalize prec emax 2 0 false.
Definition SF_180 : spec_float := Eval vm_compute in binary_normalize prec emax 180 0 false.
Definition SF_pi : spec_float := Eval vm_compute in float_of_decimal 314159265358979323846 20.
Definition R_miles : spec_float := Eval vm_compute in float_of_decimal 39588 1.
Definition degToRad : spec_float := Eval vm_compute in SF64div SF_pi SF_180.

Definition sign_bit (f : spec_float) : bool :=
  match f with
  | S754_zero s | S754_infinity s | S754_finite s _ _ => s
  | S754_nan => false
  end.

Definition copysign (x y : spec_float) : spec_float :=
  if sign_bit y then SFopp (SFabs x) else SFabs x.

(** A one-argument [math] function over the C function [func]: a NaN from
    an argument that is not one, or an infinity from a finite argument, is
    a [ValueError] ("math domain error"). *)
Definition math_1 (func : spec_float -> spec_float) (x : spec_float) : result spec_float :=
  let r := func x in
  if is_nan r && negb (is_nan x) then Raise ValueError
  else if is_inf r && is_finite x then Raise ValueError
  else Return r.

(** [x / y] on floats *)
Definition float_div (x y : spec_float) : result spec_float :=
  if is_zero y then Raise ZeroDivisionError else Return (SF64div x y).

Section Util.
Variable M : libm.

Definition math_sin : spec_float -> result spec_float := math_1 (c_sin M).
Definition math_cos : spec_float -> result spec_float := math_1 (c_cos M).
Definition math_sqrt : spec_float -> result spec_float := math_1 SF64sqrt.

(** [math.radians(x)] *)
Definition radians (x : spec_float) : spec_float := SF64mul x degToRad.

(** [math.atan2(y, x)]: the special cases are settled before the C
    function is called. *)
Definition m_atan2 (y x : spec_float) : spec_float :=
  if is_nan x || is_nan y then S754_nan
  else if is_inf y then
    if is_inf x then
      if negb (sign_bit x) then copysign (SF64mul (float_of_decimal 25 2) SF_pi) y
      else copysign (SF64mul (float_of_decimal 75 2) SF_pi) y
    else copysign (SF64mul (float_of_decimal 5 1) SF_pi) y
  else if is_inf x || is_zero y then
    if negb (sign_bit x) then copysign (S754_zero false) y
    else copysign SF_pi y
  else c_atan2 M y x.

Definition math_atan2 (y x : spec_float) : result spec_float :=
  let r := m_atan2 y x in
  if is_nan r && negb (is_nan y) && negb (is_nan x) then Raise ValueError
  else if is_inf r && is_finite y && is_finite x then Raise OverflowError
  else Return r.

(** [x ** 2] on a float: zeros, infinities and NaN are settled first, the
    C function sees the absolute value, and an infinite result of a
    finite argument is an [OverflowError]. *)
Definition float_pow2 (x : spec_float) : result spec_float :=
  match x with
  | S754_nan => Return S754_nan
  | S754_infinity _ => Return (S754_infinity false)
  | S754_zero _ => Return (S754_zero false)
  | S754_finite _ m e =>
      let v := S754_finite false m e in
      if SFeqb v SF_one then Return SF_one
      else
        let r := c_pow M v SF_two in
        if is_inf r then Raise OverflowError else Return r
  end.

(** [harvesine(lat1, lon1, lat2, lon2)].  The coordinates are floats; an
    [int] argument is first turned by [math.radians] into the float of
    the same value. *)
Definition harvesine (lat1 lon1 lat2 lon2 : spec_float) : result spec_float :=
  let R := R_miles in
  let lat1 := radians lat1 in
  let lon1 := radians lon1 in
  let lat2 := radians lat2 in
  let lon2 := radians lon2 in
  let dLat := SF64sub lat2 lat1 in
  let dLon := SF64sub lon2 lon1 in
  let! half_dLat := float_div dLat SF_two in
  let! sin_dLat := math_sin half_dLat in
  let! sin_dLat2 := float_pow2 sin_dLat in
  let! cos_lat1 := math_cos lat1 in
  let! cos_lat2 := math_cos lat2 in
  let! half_dLon := float_div dLon SF_two in
  let! sin_dLon := math_sin half_dLon in
  let! sin_dLon2 := float_pow2 sin_dLon in
  let a := SF64add sin_dLat2 (SF64mul (SF64mul cos_lat1 cos_lat2) sin_dLon2) in
  let! sqrt_a := math_sqrt a in
  let! sqrt_1a := math_sqrt (SF64sub SF_one a) in
  let! angle := math_atan2 sqrt_a sqrt_1a in
  let c := SF64mul SF_two angle in
  let distance := SF64mul R c in
  Return distance.

(** [driving_time(lat1, lon1, lat2, lon2, speed_mph)] *)
Definition driving_time (lat1 lon1 lat2 lon2 speed_mph : spec_float) : result spec_float :=
  let! distance := harvesine lat1 lon1 lat2 lon2 in
  float_div distance speed_mph.
End Util.

(** ** Vocabulary of the properties *)

(** The value under key [k] of a dict, [d] when the key is absent. *)
Definition field (v : pyval) (k : string) (d : pyval) : pyval :=
  match v with
  | PDict kvs => default d (dict_lookup kvs k)
  | _ => d
  end.

Definition is_dict (v : pyval) : bool :=
  match v with PDict _ => true | _ => false end.

(** A list whose elements are all dicts: the shape of ["dealers"], of
    ["inventory"] and of an item's ["VINs"] in a response. *)
Definition dict_list (v : pyval) : bool :=
  match v with
  | PList l => forallb is_dict l
  | _ => false
  end.

Definition returns {A : Type} (r : result A) : bool :=
  match r with Return _ => true | Raise _ => false end.

(** The VIN entries of an item and the value each has under ["VIN"]. *)
Definition vin_entries (item : pyval) : list pyval :=
  match field item "VINs" (PList []) with
  | PList l => l
  | _ => []
  end.

Definition vin_values (item : pyval) : list pyval :=
  map (fun entry => field entry "VIN" PNone) (vin_entries item).

(** The inventory items and the dealers of a response. *)
Definition inventory_items (data : pyval) : list pyval :=
  match field data "inventory" (PList []) with
  | PList l => l
  | _ => []
  end.

Definition dealers_of (data : pyval) : list pyval :=
  match field data "dealers" (PList []) with
  | PList l => l
  | _ => []
  end.

Section Shapes.
Context (float_repr : spec_float -> string).

(** The join key of a dealer or of an inventory item. *)
Definition dealer_key (v : pyval) : string :=
  py_str float_repr (field v "DealerNumber" PNone).

(** An inventory item of the shape the response has: a dict, whose
    ["VINs"], when present, is a list of dicts, and whose price
    [format_price] accepts. *)
Definition item_shaped (item : pyval) : bool :=
  is_dict item
  && dict_list (field item "VINs" (PList []))
  && returns (format_price float_repr (field item "ModelMSRP" PNone)).

(** A response of the shape the API gives: a dict whose ["dealers"] and
    ["inventory"], when present, are a list of dicts and a list of
    shaped items. *)
Definition response_shaped (data : pyval) : bool :=
  is_dict data
  && dict_list (field data "dealers" (PList []))
  && match field data "inventory" (PList []) with
     | PList items => forallb item_shaped items
     | _ => false
     end.

(** The record [build_dealer_map] stores for a dealer. *)
Definition dealer_record (dealer : pyval) : pyval :=
  PDict [("name", field dealer "Name" (PStr ""));
         ("address1", field dealer "Address1" (PStr ""));
         ("city", field dealer "City" (PStr ""));
         ("state", field dealer "State" (PStr ""));
         ("postal", field dealer "ZipCode" (PStr ""));
         ("phone", field dealer "Phone" (PStr ""));
         ("lat", field dealer "Latitude" PNone);
         ("lon", field dealer "Longitude" PNone);
         ("retail_url", field dealer "OnlineRetailingURL" (PStr ""))].

(** The last dealer of a list under a key. *)
Definition last_dealer (k : string) (dealers : list pyval) : option pyval :=
  find (fun d => String.eqb (dealer_key d) k) (rev dealers).

(** The price text of an item (empty when [format_price] raises). *)
Definition item_price (item : pyval) : string :=
  match format_price float_repr (field item "ModelMSRP" PNone) with
  | Return p => p
  | Raise _ => EmptyString
  end.

(** The dealer record an item is joined to: [dealer_map.get(dealer_num, {})]. *)
Definition joined (dealer_map : gmap string pyval) (item : pyval) : pyval :=
  default (PDict []) (dealer_map !! dealer_key item).

(** The row of a VIN of an item, given the dealer record joined to it. *)
Definition row_of (info item vin : pyval) : row :=
  Row (field info "name" (PStr "Unknown dealer"))
      (field info "address1" (PStr "")) (field info "city" (PStr ""))
      (field info "state" (PStr "")) (field info "postal" (PStr ""))
      (field info "phone" (PStr "")) (field info "lat" (PStr ""))
      (field info "lon" (PStr "")) (field info "retail_url" (PStr ""))
      (field item "ModelTrim" (PStr "")) (field item "InventoryType" (PStr ""))
      (py_or (field item "ExteriorColor" PNone)
             (py_or (field item "ModelBaseColor" PNone) (PStr "(Unknown color)")))
      vin (item_price item) (field item "InteriorColor" (PStr "")).
End Shapes.

(** The first value of [candidates] that is not empty, [fallback] when
    all are. *)
Definition first_non_empty (candidates : list pyval) (fallback : pyval) : pyval :=
  match List.filter truthy candidates with
  | x :: _ => x
  | [] => fallback
  end.

(** The color the specification gives an item. *)
Definition resolved_color (item : pyval) : pyval :=
  first_non_empty [field item "ExteriorColor" PNone; field item "ModelBaseColor" PNone]
                  (PStr "(Unknown color)").

(** Empty collections: what a loop visits no element of. *)
Definition empty_collection (v : pyval) : bool :=
  match v with
  | PList [] | PDict [] | PStr EmptyString => true
  | _ => false
  end.

(** The key [k] is absent from the dict [v]. *)
Definition absent (v : pyval) (k : string) : bool :=
  match v with
  | PDict kvs => match dict_lookup kvs k with None => true | Some _ => false end
  | _ => false
  end.

(** The key [k] of the dict [v] is absent or holds [None] (JSON null). *)
Definition absent_or_null (v : pyval) (k : string) : bool :=
  match v with
  | PDict kvs =>
      match dict_lookup kvs k with
      | None | Some PNone => true
      | Some _ => false
      end
  | _ => false
  end.

(** The examples hold no float; there [repr] of a float is this. *)
Definition no_float (f : spec_float) : string := "float".

(** The response of the specification's example: one dealer, one item
    with a VIN and an empty VIN. *)
Definition acme_response : pyval :=
  PDict [("dealers", PList [PDict [("DealerNumber", PStr "100"); ("Name", PStr "Acme")]]);
         ("inventory",
          PList [PDict [("DealerNumber", PStr "100");
                        ("VINs", PList [PDict [("VIN", PStr "X1")];
                                        PDict [("VIN", PStr "")]])]])].

(** An item of a dealer the response does not list. *)
Definition orphan_response : pyval :=
  PDict [("dealers", PList [PDict [("DealerNumber", PStr "100"); ("Name", PStr "Acme")]]);
         ("inventory",
          PList [PDict [("DealerNumber", PStr "200"); ("ModelMSRP", PStr "45000");
                        ("VINs", PList [PDict [("VIN", PStr "X1")]; PDict [];
                                        PDict [("VIN", PStr "X2")]])]])].

(** Two dealers under one number. *)
Definition twice_response : pyval :=
  PDict [("dealers",
          PList [PDict [("DealerNumber", PInt 7); ("Name", PStr "First")];
                 PDict [("DealerNumber", PStr "7"); ("Name", PStr "Second")]])].

(** A dealer and an item, both without a dealer number. *)
Definition numberless_response : pyval :=
  PDict [("dealers", PList [PDict [("Name", PStr "Nameless"); ("City", PStr "Austin")]]);
         ("inventory",
          PList [PDict [("DealerNumber", PNone);
                        ("VINs", PList [PDict [("VIN", PStr "X9")]])]])].

Definition silver_item : pyval :=
  PDict [("ExteriorColor", PStr ""); ("ModelBaseColor", PStr "Silver");
         ("VINs", PList [PDict [("VIN", PStr "X1")]])].

Definition colorless_item : pyval :=
  PDict [("ExteriorColor", PStr ""); ("ModelBaseColor", PStr "");
         ("VINs", PList [PDict [("VIN", PStr "X1")]])].

(** ** Vocabulary of the properties of [util.py] *)

Definition result_map {A B : Type} (f : A -> B) (r : result A) : result B :=
  match r with
  | Return a => Return (f a)
  | Raise e => Raise e
  end.

(** The square of the sine of half a difference, the term [harvesine]
    computes twice: [sin(d / 2) ** 2]. *)
Definition sin2_half (M : libm) (d : spec_float) : result spec_float :=
  let! half := float_div d SF_two in
  let! s := math_sin M half in
  float_pow2 M s.

(** What [harvesine] does once it has the haversine term [a]. *)
Definition distance_of_a (M : libm) (a : spec_float) : result spec_float :=
  let! sqrt_a := math_sqrt a in
  let! sqrt_1a := math_sqrt (SF64sub SF_one a) in
  let! angle := math_atan2 M sqrt_a sqrt_1a in
  Return (SF64mul R_miles (SF64mul SF_two angle)).

(** Properties of the C library the theorems name: the sine is odd; the
    sine of zero is zero; a cosine is a valid binary64 number of absolute
    value at most one. *)
Definition sin_odd (M : libm) : Prop :=
  forall x : spec_float, c_sin M (SFopp x) = SFopp (c_sin M x).

Definition sin_zero (M : libm) : Prop :=
  c_sin M (S754_zero false) = S754_zero false.

Definition cos_bounded (M : libm) : Prop :=
  forall x : spec_float,
    is_finite x = true ->
    valid_binary prec emax (c_cos M x) = true
    /\ SFleb (SFabs (c_cos M x)) SF_one = true.

Definition SF_eqb (x y : spec_float) : bool :=
  match x, y with
  | S754_zero s, S754_zero s' => Bool.eqb s s'
  | S754_infinity s, S754_infinity s' => Bool.eqb s s'
  | S754_nan, S754_nan => true
  | S754_finite s m e, S754_finite s' m' e' => Bool.eqb s s' && Pos.eqb m m' && Z.eqb e e'
  | _, _ => false
  end.

(** The floats [harvesine] meets on the antipodal points (8, 0) and
    (-8, 180): the coordinates, 8 degrees in radians, its sine and cosine
    and the square of the sine, each the binary64 number nearest to the
    exact value, and half of [math.pi]. *)
Definition SF_8 : spec_float := Eval vm_compute in binary_normalize prec emax 8 0 false.
Definition SF_0 : spec_float := S754_zero false.
Definition rad_8 : spec_float := S754_finite false 5030569068109113 (-55).
Definition sin_rad_8 : spec_float := S754_finite false 5014239404989977 (-55).
Definition cos_rad_8 : spec_float := S754_finite false 8919541810762874 (-53).
Definition sin2_rad_8 : spec_float := S754_finite false 5582777975588868 (-58).
Definition half_pi : spec_float := S754_finite false 7074237752028440 (-52).

(** A C library given by a table: the values above at the arguments
    above, and elsewhere values that keep the sine odd and the cosine
    within one. *)
Definition table_sin (x : spec_float) : spec_float :=
  let y := SFabs x in
  let v := if SF_eqb y rad_8 then sin_rad_8
           else if SF_eqb y half_pi then SF_one
           else y in
  if sign_bit x then SFopp v else v.

Definition table_cos (x : spec_float) : spec_float :=
  match x with
  | S754_nan | S754_infinity _ => S754_nan
  | _ => if SF_eqb (SFabs x) rad_8 then cos_rad_8 else SF_one
  end.

Definition table_libm : libm :=
  Libm table_sin table_cos (fun y _ => y) (fun x _ => SF64mul x x).

(** A point of the examples: 30.25 degrees north, 97.75 degrees west. *)
Definition austin_lat : spec_float := Eval vm_compute in float_of_decimal 3025 2.
Definition austin_lon : spec_float := Eval vm_compute in SFopp (float_of_decimal 9775 2).
Definition SF_60 : spec_float := Eval vm_compute in binary_normalize prec emax 60 0 false.

(** ** Vocabulary of further properties of [format_price] *)

(** A price text without its commas. *)
Fixpoint without_commas (s : string) : string :=
  match s with
  | EmptyString => EmptyString
  | String c rest =>
      if Ascii.eqb c "," then without_commas rest else String c (without_commas rest)
  end.


Definition not_comma (c : ascii) : bool := negb (Ascii.eqb c ",").

(** ** Further examples *)

Definition dealer_a : pyval :=
  PDict [("DealerNumber", PStr "100"); ("Name", PStr "Acme"); ("City", PStr "Austin")].

Definition dealer_b : pyval :=
  PDict [("DealerNumber", PStr "200"); ("Name", PStr "Bolt"); ("City", PStr "Waco")].

Definition item_of_a : pyval :=
  PDict [("DealerNumber", PStr "100"); ("ModelTrim", PStr "Sport-L");
         ("ModelMSRP", PInt 45000);
         ("VINs", PList [PDict [("VIN", PStr "X1")]; PDict [("VIN", PStr "X2")]])].

(** An item the loop cannot process: its "VINs" is null. *)
Definition item_null_vins : pyval :=
  PDict [("DealerNumber", PStr "100"); ("VINs", PNone)].

Definition two_dealers : pyval :=
  PDict [("dealers", PList [dealer_a; dealer_b]); ("inventory", PList [item_of_a])].

Definition two_dealers_swapped : pyval :=
  PDict [("dealers", PList [dealer_b; dealer_a]); ("inventory", PList [item_of_a])].

Definition one_dealer : pyval :=
  PDict [("dealers", PList [dealer_a]); ("inventory", PList [item_of_a])].

Definition broken_response : pyval :=
  PDict [("dealers", PList [dealer_a]);
         ("inventory", PList [item_of_a; item_null_vins; item_of_a])].

(** ** Vocabulary of further properties of [util.py] *)

(** A float that is not below zero: a zero of either sign, a positive
    number, plus infinity or a NaN. *)
Definition not_negative (f : spec_float) : bool := negb (SFltb f (S754_zero false)).

(** Properties of the C library: an arc tangent has a negative sign only
    for a first argument of negative sign; the sine and the cosine of an
    infinity are NaN, and so is the sine of a NaN. *)
Definition atan2_sign (M : libm) : Prop :=
  forall y x : spec_float, sign_bit (c_atan2 M y x) = true -> sign_bit y = true.

Definition trig_invalid (M : libm) : Prop :=
  (forall s : bool, c_sin M (S754_infinity s) = S754_nan)
  /\ (forall s : bool, c_cos M (S754_infinity s) = S754_nan)
  /\ c_sin M S754_nan = S754_nan.

(** The table library, with a sine that is NaN on infinities and NaN. *)
Definition strict_sin (x : spec_float) : spec_float :=
  match x with
  | S754_nan | S754_infinity _ => S754_nan
  | _ => table_sin x
  end.

Definition strict_libm : libm :=
  Libm strict_sin table_cos (fun y _ => y) (fun x _ => SF64mul x x).

(** ** [build_url] and [load_cookie] *)

(** [build_url(zip_code, max_dealers, year)], a [str] and two [int]s as
    annotated; the defaults of the source are 50 and 2025. *)
Definition build_url (zip_code : string) (max_dealers year : Z) : string :=
  "https://automobiles.honda.com/platform/api/v3/inventoryAndDealers"
  ++ "?productDivisionCode=A&modelYear=" ++ str_of_Z year ++ "&modelGroup=odyssey"
  ++ "&zipCode=" ++ zip_code ++ "&maxDealers=" ++ str_of_Z max_dealers
  ++ "&preferredDealerId=&showOnlineRetailingURL=true".

(** [c.isspace()] on the code points below 256. *)
Definition isspace (c : ascii) : bool :=
  let n := N_of_ascii c in
  ((9 <=? n)%N && (n <=? 13)%N) || ((28 <=? n)%N && (n <=? 32)%N)
  || (n =? 133)%N || (n =? 160)%N.

(** [s.lstrip()], [s.rstrip()] and [s.strip()] *)
Fixpoint lstrip (s : string) : string :=
  match s with
  | EmptyString => EmptyString
  | String c rest => if isspace c then lstrip rest else s
  end.

Fixpoint rstrip (s : string) : string :=
  match s with
  | EmptyString => EmptyString
  | String c rest =>
      match rstrip rest with
      | EmptyString => if isspace c then EmptyString else String c EmptyString
      | kept => String c kept
      end
  end.

Definition strip (s : string) : string := lstrip (rstrip s).

(** The file [.cookie] as [load_cookie] finds it: absent, present but not
    readable ([open] or [read] raises), or holding a text. *)
Inductive cookie_file : Type :=
| NoFile
| Unreadable
| Holds (content : string).

(** How [load_cookie] ends: with the cookie or with one of the two
    exceptions it raises. *)
Inductive cookie_outcome : Type :=
| Cookie (cookie : string)
| FileNotFoundError
| IOError.

(** [load_cookie()].  The [ValueError] of an empty cookie is raised inside
    the [try] and caught by its [except Exception], which raises [IOError]
    in its place. *)
Definition load_cookie (file : cookie_file) : cookie_outcome :=
  match file with
  | NoFile => FileNotFoundError
  | Unreadable => IOError
  | Holds content =>
      let cookie := strip content in
      if negb (truthy (PStr cookie)) then IOError else Cookie cookie
  end.

(** The first and the last character of a text are white space. *)
Definition starts_with_space (s : string) : bool :=
  match s with
  | EmptyString => false
  | String c _ => isspace c
  end.

Fixpoint ends_with_space (s : string) : bool :=
  match s with
  | EmptyString => false
  | String c EmptyString => isspace c
  | String _ rest => ends_with_space rest
  end.

(** * Properties *)

(** ** Dictionaries, results and the generator *)

Lemma py_get_is_dict (v : pyval) (k : string) (d : pyval) :
  is_dict v = true -> py_get v k d = Return (field v k d).
Proof. destruct v; simpl; intros H; try discriminate H. reflexivity. Qed.

Lemma py_get_not_dict (v : pyval) (k : string) (d : pyval) :
  is_dict v = false -> py_get v k d = Raise AttributeError.
Proof. destruct v; simpl; intros H; try discriminate H; reflexivity. Qed.

Lemma dict_list_inv (v : pyval) :
  dict_list v = true -> exists l, v = PList l /\ forallb is_dict l = true.
Proof. destruct v; simpl; intros H; try discriminate H. eauto. Qed.

Lemma truthy_str (s : string) : truthy (PStr s) = true <-> s <> "".
Proof.
  simpl. rewrite negb_true_iff. split.
  - intros H ->. discriminate H.
  - intros H. apply String.eqb_neq. exact H.
Qed.

Lemma for_each_app {A : Type} (body : A -> gen unit) (l1 l2 : list A) :
  for_each (l1 ++ l2)%list body
  = gen_bind (for_each l1 body) (fun _ => for_each l2 body).
Proof.
  induction l1 as [|x l1 IH]; simpl.
  - destruct (for_each l2 body). reflexivity.
  - rewrite IH. destruct (body x) as [rows [[]|e]]; simpl; [|reflexivity].
    destruct (for_each l1 body) as [rows1 [[]|e1]]; simpl.
    + destruct (for_each l2 body) as [rows2 r2]. rewrite app_assoc. reflexivity.
    + reflexivity.
Qed.

(** A loop whose every round runs to its end yields the rows of the
    rounds, one after the other. *)
Lemma for_each_all_return {A : Type} (body : A -> gen unit) (rows_of : A -> list row)
    (l : list A) :
  Forall (fun x => body x = (rows_of x, Return tt)) l ->
  for_each l body = (flat_map rows_of l, Return tt).
Proof.
  induction 1 as [|x l Hx _ IH]; simpl.
  - reflexivity.
  - rewrite Hx, IH. reflexivity.
Qed.

(** Every row of a loop is a row of one of its rounds, whether or not the
    loop runs to its end. *)
Lemma for_each_rows_inv {A : Type} (body : A -> gen unit) (l : list A) (r : row) :
  In r (fst (for_each l body)) -> exists x, In x l /\ In r (fst (body x)).
Proof.
  induction l as [|x l IH]; simpl.
  - intros [].
  - destruct (body x) as [rows [[]|e]] eqn:Hx; simpl.
    + destruct (for_each l body) as [rows' r']. simpl in *.
      intros Hin. apply in_app_or in Hin as [Hin|Hin].
      * exists x. rewrite Hx. auto.
      * destruct (IH Hin) as (y & Hy & Hr). eauto.
    + intros Hin. exists x. rewrite Hx. auto.
Qed.

Section MainProperties.
Context (fr : spec_float -> string).


Lemma for_each_vin_rows (info d t i c : pyval) (p : string) (ic : pyval)
    (entries : list pyval) :
  is_dict info = true ->
  forallb is_dict entries = true ->
  for_each entries (vin_row info d t i c p ic)
  = (map (fun v => Row d (field info "address1" (PStr "")) (field info "city" (PStr ""))
                     (field info "state" (PStr "")) (field info "postal" (PStr ""))
                     (field info "phone" (PStr "")) (field info "lat" (PStr ""))
                     (field info "lon" (PStr "")) (field info "retail_url" (PStr ""))
                     t i c v p ic)
         (List.filter truthy (map (fun e => field e "VIN" PNone) entries)),
     Return tt).
Proof.
  intros Hinfo. induction entries as [|e rest IH]; intros Hall.
  - reflexivity.
  - simpl in Hall. apply andb_true_iff in Hall as [He Hrest].
    specialize (IH Hrest).
    cbn [for_each map]. rewrite IH. clear IH.
    unfold vin_row. rewrite (py_get_is_dict e _ _ He).
    cbn [lift gen_bind List.filter].
    destruct (truthy (field e "VIN" PNone)) eqn:Ht.
    + rewrite !(py_get_is_dict info _ _ Hinfo). reflexivity.
    + reflexivity.
Qed.

(** Every dealer record is a dict, and so is what an item is joined fr to. *)
Lemma add_dealer_dict (dm : gmap string pyval) (d : pyval) :
  is_dict d = true ->
  add_dealer fr dm d = Return (<[dealer_key fr d := dealer_record d]> dm).
Proof.
  intros Hd. unfold add_dealer. rewrite !(py_get_is_dict d _ _ Hd). reflexivity.
Qed.

Lemma add_dealer_not_dict (dm : gmap string pyval) (d : pyval) :
  is_dict d = false -> add_dealer fr dm d = Raise AttributeError.
Proof.
  intros Hd. unfold add_dealer. rewrite (py_get_not_dict d _ _ Hd). reflexivity.
Qed.

Lemma find_snoc {A : Type} (p : A -> bool) (l : list A) (x : A) :
  find p (l ++ [x])%list
  = match find p l with
    | Some y => Some y
    | None => if p x then Some x else None
    end.
Proof.
  induction l as [|y l IH]; simpl.
  - reflexivity.
  - destruct (p y); [reflexivity | exact IH].
Qed.

(** [build_dealer_map fr], dealer by dealer: under each key the map holds the
    record of the last dealer of that key. *)
Lemma add_dealers_lookup (dealers : list pyval) :
  forallb is_dict dealers = true ->
  forall dm : gmap string pyval,
  exists dm' : gmap string pyval,
    add_dealers fr dm dealers = Return dm'
    /\ forall k : string,
         dm' !! k = match last_dealer fr k dealers with
                    | Some d => Some (dealer_record d)
                    | None => dm !! k
                    end.
Proof.
  induction dealers as [|d rest IH]; intros Hall dm.
  - exists dm. split; [reflexivity | intros k; reflexivity].
  - simpl in Hall. apply andb_true_iff in Hall as [Hd Hrest].
    destruct (IH Hrest (<[dealer_key fr d := dealer_record d]> dm)) as (dm' & Hrun & Hlook).
    exists dm'. split.
    + simpl. rewrite (add_dealer_dict dm d Hd). exact Hrun.
    + intros k. rewrite Hlook. unfold last_dealer. simpl rev.
      rewrite find_snoc.
      destruct (find _ (rev rest)) as [d'|]; [reflexivity|].
      destruct (String.eqb (dealer_key fr d) k) eqn:Hk.
      * apply String.eqb_eq in Hk. subst k. apply lookup_insert_eq.
      * apply String.eqb_neq in Hk. apply lookup_insert_ne. exact Hk.
Qed.

Lemma add_dealers_not_dict (dealers : list pyval) :
  forallb is_dict dealers = false ->
  forall dm : gmap string pyval, add_dealers fr dm dealers = Raise AttributeError.
Proof.
  induction dealers as [|d rest IH]; intros Hall dm.
  - discriminate Hall.
  - simpl in Hall. simpl. destruct (is_dict d) eqn:Hd.
    + rewrite (add_dealer_dict dm d Hd). simpl. apply IH. exact Hall.
    + rewrite (add_dealer_not_dict dm d Hd). reflexivity.
Qed.

Lemma build_dealer_map_shaped (data : pyval) :
  is_dict data = true ->
  dict_list (field data "dealers" (PList [])) = true ->
  exists dm : gmap string pyval,
    build_dealer_map fr data = Return dm
    /\ forall k : string,
         dm !! k = option_map dealer_record (last_dealer fr k (dealers_of data)).
Proof.
  intros Hdata Hdealers. unfold build_dealer_map.
  rewrite (py_get_is_dict data _ _ Hdata). unfold dealers_of.
  destruct (dict_list_inv _ Hdealers) as (ds & -> & Hds). simpl.
  destruct (add_dealers_lookup ds Hds ∅) as (dm & Hrun & Hlook).
  exists dm. split; [exact Hrun|].
  intros k. rewrite Hlook. destruct (last_dealer fr k ds); [reflexivity|].
  apply lookup_empty.
Qed.

Lemma joined_is_dict (dm : gmap string pyval) (item : pyval) :
  (forall k v, dm !! k = Some v -> is_dict v = true) ->
  is_dict (joined fr dm item) = true.
Proof.
  intros Hdm. unfold joined.
  destruct (dm !! dealer_key fr item) as [v|] eqn:Hk; simpl; [eauto | reflexivity].
Qed.

(** The rows of a shaped item: one for each VIN that is not empty, in
    order, each with the fields of the item and of the record joined fr. *)
Lemma item_rows_shaped (dm : gmap string pyval) (item : pyval) :
  (forall k v, dm !! k = Some v -> is_dict v = true) ->
  item_shaped fr item = true ->
  item_rows fr dm item
  = (map (row_of fr (joined fr dm item) item) (List.filter truthy (vin_values item)),
     Return tt).
Proof.
  intros Hdm Hshape. unfold item_shaped in Hshape.
  apply andb_true_iff in Hshape as [Hshape Hprice].
  apply andb_true_iff in Hshape as [Hitem Hvins].
  pose proof (joined_is_dict dm item Hdm) as Hinfo.
  unfold item_rows.
  rewrite !(py_get_is_dict item _ _ Hitem). cbn [lift gen_bind app].
  fold (dealer_key fr item). fold (joined fr dm item).
  rewrite (py_get_is_dict (joined fr dm item) _ _ Hinfo).
  unfold row_of, item_price.
  destruct (format_price fr (field item "ModelMSRP" PNone)) as [p|e]; [|discriminate Hprice].
  unfold vin_values, vin_entries.
  destruct (dict_list_inv _ Hvins) as (entries & -> & Hentries).
  cbn [py_iter].
  rewrite (for_each_vin_rows _ _ _ _ _ _ _ entries Hinfo Hentries).
  reflexivity.
Qed.

(** The rows of a shaped response: the rows of its items, in order, and
    no exception. *)
Lemma iter_inventory_rows_shaped (data : pyval) :
  response_shaped fr data = true ->
  exists dm : gmap string pyval,
    build_dealer_map fr data = Return dm
    /\ (forall k : string,
          dm !! k = option_map dealer_record (last_dealer fr k (dealers_of data)))
    /\ Forall (fun item =>
                 item_rows fr dm item
                 = (map (row_of fr (joined fr dm item) item)
                        (List.filter truthy (vin_values item)), Return tt))
              (inventory_items data)
    /\ iter_inventory_rows fr data
       = (flat_map (fun item => map (row_of fr (joined fr dm item) item)
                                    (List.filter truthy (vin_values item)))
                   (inventory_items data),
          Return tt).
Proof.
  intros Hshape. unfold response_shaped in Hshape.
  apply andb_true_iff in Hshape as [Hshape Hinv].
  apply andb_true_iff in Hshape as [Hdata Hdealers].
  destruct (build_dealer_map_shaped data Hdata Hdealers) as (dm & Hrun & Hlook).
  assert (Hdm : forall k v, dm !! k = Some v -> is_dict v = true).
  { intros k v Hk. rewrite Hlook in Hk.
    destruct (last_dealer fr k (dealers_of data)); simpl in Hk; [|discriminate Hk].
    injection Hk as <-. reflexivity. }
  assert (Hitems : Forall (fun item =>
                 item_rows fr dm item
                 = (map (row_of fr (joined fr dm item) item)
                        (List.filter truthy (vin_values item)), Return tt))
              (inventory_items data)).
  { unfold inventory_items.
    destruct (field data "inventory" (PList [])) as [| | | | |items|]; try discriminate Hinv.
    apply List.Forall_forall. intros item Hin. apply item_rows_shaped; [exact Hdm|].
    rewrite forallb_forall in Hinv. apply Hinv. exact Hin. }
  exists dm. repeat split; try assumption.
  unfold iter_inventory_rows.
  rewrite Hrun. cbn [lift gen_bind app].
  rewrite (py_get_is_dict data _ _ Hdata). cbn [lift gen_bind app].
  unfold inventory_items in *.
  destruct (field data "inventory" (PList [])) as [| | | | |items|]; try discriminate Hinv.
  cbn [py_iter lift gen_bind app].
  rewrite (for_each_all_return _ _ _ Hitems). reflexivity.
Qed.

End MainProperties.

(** ** Rows, whatever the shape of the input *)

Lemma gen_bind_lift_rows {A B : Type} (x : result A) (k : A -> gen B) (r : row) :
  In r (fst (gen_bind (lift x) k)) -> exists a, x = Return a /\ In r (fst (k a)).
Proof.
  destruct x as [a|e]; simpl.
  - destruct (k a) as [rows res] eqn:Hk. simpl. intros Hin. exists a. rewrite Hk. auto.
  - intros [].
Qed.

Lemma or_first_non_empty (a b c : pyval) :
  truthy c = true -> py_or a (py_or b c) = first_non_empty [a; b] c.
Proof.
  intros Hc. unfold py_or, first_non_empty. simpl.
  destruct (truthy a), (truthy b); reflexivity.
Qed.

Lemma chars_not_dict (s : string) (e : pyval) : In e (chars s) -> is_dict e = false.
Proof.
  induction s as [|c s IH]; simpl.
  - intros [].
  - intros [<-|Hin]; [reflexivity | exact (IH Hin)].
Qed.

Lemma py_iter_dict_entry (v : pyval) (l : list pyval) (e : pyval) :
  py_iter v = Return l -> In e l -> is_dict e = true -> v = PList l.
Proof.
  destruct v; simpl; intros Hl Hin He; try discriminate Hl; injection Hl as <-.
  - apply chars_not_dict in Hin. congruence.
  - reflexivity.
  - apply in_map_iff in Hin as (kv & <- & _). discriminate He.
Qed.

(** A row of an item carries a VIN that is not empty and the color the
    item resolves to. *)
Lemma item_rows_row_inv (fr : spec_float -> string) (dm : gmap string pyval)
    (item : pyval) (r : row) :
  In r (fst (item_rows fr dm item)) ->
  truthy (vin r) = true
  /\ In (vin r) (vin_values item)
  /\ color r = resolved_color item.
Proof.
  unfold item_rows. intros Hin.
  destruct (is_dict item) eqn:Hitem.
  2:{ rewrite (py_get_not_dict item _ _ Hitem) in Hin. destruct Hin. }
  repeat (let a := fresh "a" in
          let Hget := fresh "Hget" in
          apply gen_bind_lift_rows in Hin as (a & Hget & Hin);
          try (rewrite (py_get_is_dict item _ _ Hitem) in Hget; injection Hget as <-)).
  apply for_each_rows_inv in Hin as (entry & Hentry & Hin).
  unfold vin_row in Hin.
  destruct (is_dict entry) eqn:Hdict.
  2:{ rewrite (py_get_not_dict entry _ _ Hdict) in Hin. destruct Hin. }
  apply gen_bind_lift_rows in Hin as (v & Hv & Hin).
  rewrite (py_get_is_dict entry _ _ Hdict) in Hv. injection Hv as <-.
  destruct (truthy (field entry "VIN" PNone)) eqn:Htv; [|destruct Hin].
  cbn [negb] in Hin.
  apply gen_bind_lift_rows in Hin as (r' & Hr' & Hin).
  destruct Hin as [<-|[]].
  repeat match type of Hr' with
         | bind ?g _ = _ => destruct g; [|discriminate Hr']; cbn [bind] in Hr'
         end.
  injection Hr' as <-. cbn [vin color].
  split; [exact Htv|]. split.
  - unfold vin_values, vin_entries.
    rewrite (py_iter_dict_entry _ _ _ Hget1 Hentry Hdict).
    apply in_map_iff. exists entry. split; [reflexivity | exact Hentry].
  - unfold resolved_color. apply or_first_non_empty. reflexivity.
Qed.

(** Every row of [iter_inventory_rows] is a row of one of the items. *)
Lemma iter_inventory_rows_row_inv (fr : spec_float -> string) (data : pyval) (r : row) :
  In r (fst (iter_inventory_rows fr data)) ->
  exists (dm : gmap string pyval) (item : pyval),
    build_dealer_map fr data = Return dm
    /\ In item (inventory_items data)
    /\ In r (fst (item_rows fr dm item)).
Proof.
  unfold iter_inventory_rows. intros Hin.
  apply gen_bind_lift_rows in Hin as (dm & Hdm & Hin).
  apply gen_bind_lift_rows in Hin as (inv & Hinv & Hin).
  apply gen_bind_lift_rows in Hin as (items & Hitems & Hin).
  apply for_each_rows_inv in Hin as (item & Hitem & Hin).
  exists dm, item. split; [exact Hdm|]. split; [|exact Hin].
  destruct (is_dict item) eqn:Hdict.
  2:{ unfold item_rows in Hin. rewrite (py_get_not_dict item _ _ Hdict) in Hin. destruct Hin. }
  destruct (is_dict data) eqn:Hdata.
  2:{ rewrite (py_get_not_dict data _ _ Hdata) in Hinv. discriminate Hinv. }
  rewrite (py_get_is_dict data _ _ Hdata) in Hinv. injection Hinv as <-.
  unfold inventory_items.
  rewrite (py_iter_dict_entry _ _ _ Hitems Hitem Hdict). exact Hitem.
Qed.

Lemma vin_row_of (fr : spec_float -> string) (info item : pyval) (l : list pyval) :
  map vin (map (row_of fr info item) l) = l.
Proof. rewrite List.map_map. simpl. apply List.map_id. Qed.

Lemma vins_of_rows (fr : spec_float -> string) (info : pyval -> pyval) (items : list pyval) :
  map vin (flat_map (fun item => map (row_of fr (info item) item)
                                     (List.filter truthy (vin_values item))) items)
  = List.filter truthy (flat_map vin_values items).
Proof.
  induction items as [|item items IH]; simpl.
  - reflexivity.
  - rewrite List.map_app, List.filter_app, IH, vin_row_of. reflexivity.
Qed.

Lemma filter_length_le {A : Type} (p : A -> bool) (l : list A) :
  (length (List.filter p l) <= length l)%nat.
Proof.
  induction l as [|x l IH]; simpl; [lia|]. destruct (p x); simpl; lia.
Qed.

Lemma vin_values_length (items : list pyval) :
  length (flat_map vin_values items) = length (flat_map vin_entries items).
Proof.
  induction items as [|item items IH]; simpl; [reflexivity|].
  rewrite !List.length_app, IH. unfold vin_values. rewrite List.length_map. reflexivity.
Qed.

Lemma find_app_none {A : Type} (p : A -> bool) (l1 l2 : list A) :
  find p l1 = None -> find p (l1 ++ l2)%list = find p l2.
Proof.
  induction l1 as [|x l1 IH]; simpl; [reflexivity|].
  destruct (p x); [discriminate | exact IH].
Qed.

Lemma find_all_false {A : Type} (p : A -> bool) (l : list A) :
  List.Forall (fun x => p x = false) l -> find p l = None.
Proof.
  induction 1 as [|x l Hx _ IH]; simpl; [reflexivity|]. rewrite Hx. exact IH.
Qed.

(** The dealer found under a key is the one after which no dealer of the
    list has the key. *)
Lemma last_dealer_split (fr : spec_float -> string) (before after : list pyval) (d : pyval) :
  List.Forall (fun d' => dealer_key fr d' <> dealer_key fr d) after ->
  last_dealer fr (dealer_key fr d) (before ++ d :: after) = Some d.
Proof.
  intros Hafter. unfold last_dealer.
  rewrite List.rev_app_distr. simpl. rewrite <- List.app_assoc. simpl.
  rewrite find_app_none.
  - simpl. rewrite String.eqb_refl. reflexivity.
  - apply find_all_false. apply List.Forall_rev.
    eapply List.Forall_impl; [|exact Hafter].
    intros d' Hd'. apply String.eqb_neq. exact Hd'.
Qed.

Lemma last_dealer_none (fr : spec_float -> string) (k : string) (dealers : list pyval) :
  List.Forall (fun d => dealer_key fr d <> k) dealers -> last_dealer fr k dealers = None.
Proof.
  intros Hall. unfold last_dealer. apply find_all_false. apply List.Forall_rev.
  eapply List.Forall_impl; [|exact Hall].
  intros d Hd. apply String.eqb_neq. exact Hd.
Qed.

Lemma last_dealer_some (fr : spec_float -> string) (k : string) (dealers : list pyval)
    (d : pyval) :
  In d dealers -> dealer_key fr d = k ->
  exists d', last_dealer fr k dealers = Some d' /\ In d' dealers /\ dealer_key fr d' = k.
Proof.
  intros Hin Hk. unfold last_dealer.
  destruct (find (fun d0 => String.eqb (dealer_key fr d0) k) (rev dealers)) as [d'|] eqn:Hfind.
  - apply List.find_some in Hfind as [Hin' Hk']. exists d'.
    split; [reflexivity|]. split.
    + apply List.in_rev. exact Hin'.
    + apply String.eqb_eq. exact Hk'.
  - exfalso. apply List.in_rev in Hin.
    pose proof (List.find_none _ _ Hfind d Hin) as Hneq. simpl in Hneq.
    subst k. rewrite String.eqb_refl in Hneq. discriminate Hneq.
Qed.

Lemma absent_or_null_field (v : pyval) (k : string) :
  absent_or_null v k = true -> field v k PNone = PNone.
Proof.
  destruct v; simpl; try discriminate.
  destruct (dict_lookup kvs k) as [[]|]; simpl; try discriminate; reflexivity.
Qed.

Lemma absent_field (v : pyval) (k : string) (d : pyval) :
  absent v k = true -> is_dict v = true /\ field v k d = d.
Proof.
  destruct v; simpl; try discriminate.
  destruct (dict_lookup kvs k); simpl; try discriminate. auto.
Qed.

Lemma empty_collection_iter (v : pyval) :
  empty_collection v = true -> py_iter v = Return [].
Proof.
  destruct v as [| | | |s|l|kvs]; simpl; try discriminate.
  - destruct s; [reflexivity | discriminate].
  - destruct l; [reflexivity | discriminate].
  - destruct kvs; [reflexivity | discriminate].
Qed.

Lemma flat_map_agree {A B : Type} (f g : A -> list B) (l : list A) :
  List.Forall (fun x => f x = g x) l -> flat_map f l = flat_map g l.
Proof.
  induction 1 as [|x l Hx _ IH]; simpl; [reflexivity|]. rewrite Hx, IH. reflexivity.
Qed.

(** ** The claims on [main.py] *)

(** C1. An inventory item whose dealer number has no entry in the dealer
    index raises nothing and gives one row for each of its VINs that is
    not empty; in each of these rows the dealer name is the marker
    "Unknown dealer" and the eight other dealer fields (address1, city,
    state, postal, phone, lat, lon, retail_url) are the empty string.  The
    response has the shape the API gives it ([response_shaped]). *)
Theorem unknown_dealer_rows (fr : spec_float -> string) (data : pyval) :
  response_shaped fr data = true ->
  exists dm : gmap string pyval,
    build_dealer_map fr data = Return dm
    /\ iter_inventory_rows fr data
       = (flat_map (fun item => fst (item_rows fr dm item)) (inventory_items data),
          Return tt)
    /\ forall item : pyval,
         In item (inventory_items data) ->
         dm !! dealer_key fr item = None ->
         snd (item_rows fr dm item) = Return tt
         /\ map vin (fst (item_rows fr dm item)) = List.filter truthy (vin_values item)
         /\ List.Forall
              (fun r => dealer r = PStr "Unknown dealer"
                        /\ address1 r = PStr "" /\ city r = PStr ""
                        /\ state r = PStr "" /\ postal r = PStr ""
                        /\ phone r = PStr "" /\ lat r = PStr ""
                        /\ lon r = PStr "" /\ retail_url r = PStr "")
              (fst (item_rows fr dm item)).
Proof.
  intros Hshape.
  destruct (iter_inventory_rows_shaped fr data Hshape) as (dm & Hdm & _ & Hitems & Hrows).
  exists dm. split; [exact Hdm|]. split.
  - rewrite Hrows. f_equal. apply flat_map_agree.
    eapply List.Forall_impl; [|exact Hitems].
    intros item Hitem. simpl in Hitem. rewrite Hitem. reflexivity.
  - intros item Hin Hnone. rewrite List.Forall_forall in Hitems.
    rewrite (Hitems item Hin). cbn [fst snd].
    split; [reflexivity|]. split; [apply vin_row_of|].
    unfold joined. rewrite Hnone. apply List.Forall_forall.
    intros r Hr. apply in_map_iff in Hr as (v & <- & _).
    repeat split.
Qed.

Lemma unknown_dealer_rows_witness :
  exists dm : gmap string pyval,
    build_dealer_map no_float orphan_response = Return dm
    /\ iter_inventory_rows no_float orphan_response
       = (flat_map (fun item => fst (item_rows no_float dm item))
                   (inventory_items orphan_response),
          Return tt)
    /\ forall item : pyval,
         In item (inventory_items orphan_response) ->
         dm !! dealer_key no_float item = None ->
         snd (item_rows no_float dm item) = Return tt
         /\ map vin (fst (item_rows no_float dm item))
            = List.filter truthy (vin_values item)
         /\ List.Forall
              (fun r => dealer r = PStr "Unknown dealer"
                        /\ address1 r = PStr "" /\ city r = PStr ""
                        /\ state r = PStr "" /\ postal r = PStr ""
                        /\ phone r = PStr "" /\ lat r = PStr ""
                        /\ lon r = PStr "" /\ retail_url r = PStr "")
              (fst (item_rows no_float dm item)).
Proof. apply (unknown_dealer_rows no_float orphan_response). reflexivity. Defined.

(** The rows of the item of [orphan_response], whose dealer "200" is not
    listed. *)
Example orphan_rows :
  iter_inventory_rows no_float orphan_response
  = ([Row (PStr "Unknown dealer") (PStr "") (PStr "") (PStr "") (PStr "") (PStr "")
          (PStr "") (PStr "") (PStr "") (PStr "") (PStr "") (PStr "(Unknown color)")
          (PStr "X1") "$45,000" (PStr "");
      Row (PStr "Unknown dealer") (PStr "") (PStr "") (PStr "") (PStr "") (PStr "")
          (PStr "") (PStr "") (PStr "") (PStr "") (PStr "") (PStr "(Unknown color)")
          (PStr "X2") "$45,000" (PStr "")],
     Return tt).
Proof. vm_compute. reflexivity. Qed.

(** C2. [format_price] on a string that passes the digit test but that
    [float] does not read: the one-character string U+00B2 (superscript
    two) is a digit for [str.isdigit] and raises [ValueError]. *)
Theorem format_price_superscript_raises (fr : spec_float -> string) :
  isdigit (remove_first_dot (String "178" EmptyString)) = true
  /\ format_price fr (PStr (String "178" EmptyString)) = Raise ValueError.
Proof. split; reflexivity. Qed.

(** What [format_price] does on the inputs of the specification's
    examples, and on a value that is neither text nor a number. *)
Lemma format_price_examples (fr : spec_float -> string) :
  format_price fr PNone = Return "N/A"
  /\ format_price fr (PStr "45000") = Return "$45,000"
  /\ format_price fr (PFloat (float_of_decimal 450004 1)) = Return "$45,000"
  /\ format_price fr (PInt 45000) = Return "$45,000"
  /\ format_price fr (PStr "N/A") = Return "N/A"
  /\ format_price fr (PStr "2.5") = Return "$2"
  /\ format_price fr (PStr "3.5") = Return "$4"
  /\ format_price fr (PList []) = Return "[]".
Proof. repeat split; vm_compute; reflexivity. Qed.

(** A string that does not pass the digit test comes back unchanged. *)
Lemma format_price_other_text (fr : spec_float -> string) (s : string) :
  isdigit (remove_first_dot s) = false -> format_price fr (PStr s) = Return s.
Proof. intros H. simpl. rewrite H. reflexivity. Qed.

(** An [int] beyond the range of a float raises [OverflowError]. *)
Lemma format_price_huge_int (fr : spec_float -> string) :
  format_price fr (PInt (10 ^ 400)) = Raise OverflowError.
Proof. vm_compute. reflexivity. Qed.

(** [round_half_even], which [format_comma_0f] prints, is the integer
    nearest to [m * 2^e]: exact for an exponent that is not negative, and
    otherwise within half a unit of [m / 2^p], even when half a unit away. *)
Lemma round_half_even_nearest (m : positive) (p : positive) :
  let n := round_half_even m (Z.neg p) in
  let d := 2 ^ Z.pos p in
  Z.abs (2 * Z.pos m - 2 * n * d) <= d
  /\ (Z.abs (2 * Z.pos m - 2 * n * d) = d -> Z.even n = true).
Proof.
  cbn zeta. unfold round_half_even. rewrite Z.pow_pos_fold.
  set (d := 2 ^ Z.pos p).
  assert (Hd : 0 < d) by (apply Z.pow_pos_nonneg; lia).
  pose proof (Z.div_mod (Z.pos m) d ltac:(lia)) as Hdiv.
  pose proof (Z.mod_pos_bound (Z.pos m) d Hd) as Hmod.
  set (q := Z.pos m / d) in *. set (r := Z.pos m mod d) in *.
  destruct (Z.compare_spec (2 * r) d) as [Heq|Hlt|Hgt].
  - destruct (Z.even q) eqn:Heven.
    + split; [nia | intros _; exact Heven].
    + split; [nia | intros _].
      rewrite Z.add_1_r, Z.even_succ, <- Z.negb_even, Heven. reflexivity.
  - split; [nia | intros Habs; nia].
  - split; [nia | intros Habs; nia].
Qed.

Lemma round_half_even_exact (m : positive) (e : Z) :
  0 <= e -> round_half_even m e = Z.pos m * 2 ^ e.
Proof. destruct e; intros He; try reflexivity. lia. Qed.

(** C3. Every row of an inventory item has as color the first value that
    is not empty among the item's ExteriorColor, then its ModelBaseColor,
    then the text "(Unknown color)"; with ExteriorColor empty and
    ModelBaseColor "Silver" the color is "Silver", with both empty it is
    "(Unknown color)". *)
Theorem color_fallback (fr : spec_float -> string) :
  (forall (dm : gmap string pyval) (item : pyval) (r : row),
      In r (fst (item_rows fr dm item)) ->
      color r = first_non_empty [field item "ExteriorColor" PNone;
                                 field item "ModelBaseColor" PNone]
                                (PStr "(Unknown color)"))
  /\ map color (fst (item_rows fr ∅ silver_item)) = [PStr "Silver"]
  /\ map color (fst (item_rows fr ∅ colorless_item)) = [PStr "(Unknown color)"].
Proof.
  split; [|split; reflexivity].
  intros dm item r Hin.
  destruct (item_rows_row_inv fr dm item r Hin) as (_ & _ & Hcolor). exact Hcolor.
Qed.

Lemma color_fallback_witness :
  color (row_of no_float (PDict []) silver_item (PStr "X1"))
  = first_non_empty [field silver_item "ExteriorColor" PNone;
                     field silver_item "ModelBaseColor" PNone]
                    (PStr "(Unknown color)").
Proof.
  apply (proj1 (color_fallback no_float) ∅ silver_item).
  vm_compute. left. reflexivity.
Defined.

(** C4. A response of the API's shape gives exactly one row for each VIN
    entry whose VIN is not empty, in order, and none for an entry whose VIN
    is absent or empty, so there are at most as many rows as VIN entries;
    whatever the input, every row yielded has a VIN that is not empty; the
    response with dealer "100" named "Acme" and one item with the VINs "X1"
    and "" gives one row, of VIN "X1" and dealer "Acme". *)
Theorem one_row_per_vin (fr : spec_float -> string) :
  (forall data : pyval,
      response_shaped fr data = true ->
      exists rows : list row,
        iter_inventory_rows fr data = (rows, Return tt)
        /\ map vin rows = List.filter truthy (flat_map vin_values (inventory_items data))
        /\ (length rows <= length (flat_map vin_entries (inventory_items data)))%nat)
  /\ (forall (data : pyval) (r : row),
         In r (fst (iter_inventory_rows fr data)) -> truthy (vin r) = true)
  /\ (forall entry : pyval,
         absent entry "VIN" = true \/ field entry "VIN" PNone = PStr "" ->
         truthy (field entry "VIN" PNone) = false)
  /\ exists r : row,
       iter_inventory_rows fr acme_response = ([r], Return tt)
       /\ vin r = PStr "X1" /\ dealer r = PStr "Acme".
Proof.
  split; [|split; [|split]].
  - intros data Hshape.
    destruct (iter_inventory_rows_shaped fr data Hshape) as (dm & _ & _ & _ & Hrows).
    eexists. split; [exact Hrows|].
    pose proof (vins_of_rows fr (joined fr dm) (inventory_items data)) as Hvins.
    split; [exact Hvins|].
    rewrite <- (List.length_map vin), Hvins, <- vin_values_length.
    apply filter_length_le.
  - intros data r Hin.
    destruct (iter_inventory_rows_row_inv fr data r Hin) as (dm & item & _ & _ & Hr).
    apply (item_rows_row_inv fr dm item r Hr).
  - intros entry [Habs | Hempty].
    + destruct (absent_field entry "VIN" PNone Habs) as [_ ->]. reflexivity.
    + rewrite Hempty. reflexivity.
  - eexists. split; [vm_compute; reflexivity|]. split; reflexivity.
Qed.

Lemma one_row_per_vin_witness :
  exists rows : list row,
    iter_inventory_rows no_float orphan_response = (rows, Return tt)
    /\ map vin rows
       = List.filter truthy (flat_map vin_values (inventory_items orphan_response))
    /\ (length rows <= length (flat_map vin_entries (inventory_items orphan_response)))%nat.
Proof. apply (proj1 (one_row_per_vin no_float) orphan_response). reflexivity. Defined.

(** C8. [build_dealer_map] maps the string of each dealer number to one
    record, and when several dealers have the same number, to the record
    of the last of them in the order of the input. *)
Theorem last_write_wins (fr : spec_float -> string) (data : pyval) :
  is_dict data = true ->
  dict_list (field data "dealers" (PList [])) = true ->
  exists dm : gmap string pyval,
    build_dealer_map fr data = Return dm
    /\ (forall (before after : list pyval) (d : pyval),
           dealers_of data = (before ++ d :: after)%list ->
           List.Forall (fun d' => dealer_key fr d' <> dealer_key fr d) after ->
           dm !! py_str fr (field d "DealerNumber" PNone) = Some (dealer_record d))
    /\ (forall k : string,
           List.Forall (fun d => dealer_key fr d <> k) (dealers_of data) ->
           dm !! k = None).
Proof.
  intros Hdata Hdealers.
  destruct (build_dealer_map_shaped fr data Hdata Hdealers) as (dm & Hrun & Hlook).
  exists dm. split; [exact Hrun|]. split.
  - intros before after d Hsplit Hafter. fold (dealer_key fr d).
    rewrite Hlook, Hsplit, (last_dealer_split fr before after d Hafter). reflexivity.
  - intros k Hnone. rewrite Hlook, (last_dealer_none fr k _ Hnone). reflexivity.
Qed.

Lemma last_write_wins_witness :
  exists dm : gmap string pyval,
    build_dealer_map no_float twice_response = Return dm
    /\ dm !! "7" = Some (dealer_record (PDict [("DealerNumber", PStr "7");
                                               ("Name", PStr "Second")])).
Proof.
  destruct (last_write_wins no_float twice_response eq_refl eq_refl)
    as (dm & Hrun & Hlast & _).
  exists dm. split; [exact Hrun|].
  exact (Hlast [PDict [("DealerNumber", PInt 7); ("Name", PStr "First")]] []
               (PDict [("DealerNumber", PStr "7"); ("Name", PStr "Second")])
               eq_refl (List.Forall_nil _)).
Defined.

(** C9. A response without the key "inventory", or with an empty
    collection under it, gives no row and raises nothing, its dealers being
    absent or a list of dicts; and a response without the key "dealers"
    has the empty dealer map, as if the list of dealers were empty. *)
Theorem empty_inventory_no_rows (fr : spec_float -> string) :
  (forall data : pyval,
      is_dict data = true ->
      dict_list (field data "dealers" (PList [])) = true ->
      absent data "inventory" = true
      \/ empty_collection (field data "inventory" (PList [])) = true ->
      iter_inventory_rows fr data = ([], Return tt))
  /\ (forall data : pyval,
         absent data "dealers" = true ->
         build_dealer_map fr data = Return ∅
         /\ build_dealer_map fr data
            = build_dealer_map fr (PDict [("dealers", PList [])])).
Proof.
  split.
  - intros data Hdata Hdealers Hinv.
    destruct (build_dealer_map_shaped fr data Hdata Hdealers) as (dm & Hrun & _).
    unfold iter_inventory_rows. rewrite Hrun. cbn [lift gen_bind app].
    rewrite (py_get_is_dict data _ _ Hdata). cbn [lift gen_bind app].
    assert (Hiter : py_iter (field data "inventory" (PList [])) = Return []).
    { destruct Hinv as [Habs | Hempty].
      - destruct (absent_field data "inventory" (PList []) Habs) as [_ ->]. reflexivity.
      - apply empty_collection_iter. exact Hempty. }
    rewrite Hiter. reflexivity.
  - intros data Habs.
    destruct (absent_field data "dealers" (PList []) Habs) as [Hdata Hfield].
    unfold build_dealer_map. rewrite (py_get_is_dict data _ _ Hdata), Hfield.
    split; reflexivity.
Qed.

Lemma empty_inventory_no_rows_witness :
  iter_inventory_rows no_float twice_response = ([], Return tt)
  /\ build_dealer_map no_float (PDict [("inventory", PList [])]) = Return ∅.
Proof.
  split.
  - apply (proj1 (empty_inventory_no_rows no_float) twice_response);
      [reflexivity | reflexivity | left; reflexivity].
  - apply (proj2 (empty_inventory_no_rows no_float) (PDict [("inventory", PList [])])).
    reflexivity.
Defined.

(** C10. Both sides of the join take as key the string of the
    DealerNumber value, so an item whose DealerNumber is absent or null has
    the key "None", and so has a dealer whose DealerNumber is absent or
    null; when the response has such a dealer, the item is joined to the
    record of the last dealer of key "None" (that dealer, when it is the
    only one) and its rows carry this record's name and address fields,
    not the defaults of an unknown dealer. *)
Theorem none_key_join (fr : spec_float -> string) (data item d : pyval) :
  response_shaped fr data = true ->
  In item (inventory_items data) ->
  In d (dealers_of data) ->
  absent_or_null item "DealerNumber" = true ->
  absent_or_null d "DealerNumber" = true ->
  py_str fr (field item "DealerNumber" PNone) = "None"
  /\ py_str fr (field d "DealerNumber" PNone) = "None"
  /\ exists (dm : gmap string pyval) (d' : pyval),
       build_dealer_map fr data = Return dm
       /\ In d' (dealers_of data)
       /\ dealer_key fr d' = "None"
       /\ ((forall x, In x (dealers_of data) -> dealer_key fr x = "None" -> x = d) -> d' = d)
       /\ dm !! "None" = Some (dealer_record d')
       /\ snd (item_rows fr dm item) = Return tt
       /\ map vin (fst (item_rows fr dm item)) = List.filter truthy (vin_values item)
       /\ List.Forall
            (fun r => dealer r = field d' "Name" (PStr "")
                      /\ address1 r = field d' "Address1" (PStr "")
                      /\ city r = field d' "City" (PStr "")
                      /\ state r = field d' "State" (PStr "")
                      /\ postal r = field d' "ZipCode" (PStr "")
                      /\ phone r = field d' "Phone" (PStr "")
                      /\ lat r = field d' "Latitude" PNone
                      /\ lon r = field d' "Longitude" PNone
                      /\ retail_url r = field d' "OnlineRetailingURL" (PStr ""))
            (fst (item_rows fr dm item)).
Proof.
  intros Hshape Hitem Hd Hitem_none Hd_none.
  assert (Hki : dealer_key fr item = "None").
  { unfold dealer_key. rewrite (absent_or_null_field _ _ Hitem_none). reflexivity. }
  assert (Hkd : dealer_key fr d = "None").
  { unfold dealer_key. rewrite (absent_or_null_field _ _ Hd_none). reflexivity. }
  split; [exact Hki|]. split; [exact Hkd|].
  destruct (iter_inventory_rows_shaped fr data Hshape) as (dm & Hdm & Hlook & Hitems & _).
  destruct (last_dealer_some fr "None" (dealers_of data) d Hd Hkd) as (d' & Hlast & Hin' & Hk').
  exists dm, d'. split; [exact Hdm|]. split; [exact Hin'|]. split; [exact Hk'|].
  split; [intros Honly; apply Honly; assumption|].
  assert (Hnone : dm !! "None" = Some (dealer_record d')).
  { rewrite Hlook, Hlast. reflexivity. }
  split; [exact Hnone|].
  rewrite List.Forall_forall in Hitems. rewrite (Hitems item Hitem). cbn [fst snd].
  split; [reflexivity|]. split; [apply vin_row_of|].
  unfold joined. rewrite Hki, Hnone. apply List.Forall_forall.
  intros r Hr. apply in_map_iff in Hr as (v & <- & _).
  repeat split.
Qed.

Lemma none_key_join_witness :
  exists (dm : gmap string pyval) (d' : pyval),
    build_dealer_map no_float numberless_response = Return dm
    /\ dm !! "None" = Some (dealer_record d')
    /\ List.Forall (fun r => dealer r = field d' "Name" (PStr "")
                              /\ city r = field d' "City" (PStr ""))
         (fst (item_rows no_float dm
                 (PDict [("DealerNumber", PNone);
                         ("VINs", PList [PDict [("VIN", PStr "X9")]])]))).
Proof.
  destruct (none_key_join no_float numberless_response
              (PDict [("DealerNumber", PNone); ("VINs", PList [PDict [("VIN", PStr "X9")]])])
              (PDict [("Name", PStr "Nameless"); ("City", PStr "Austin")])
              eq_refl (or_introl eq_refl) (or_introl eq_refl) eq_refl eq_refl)
    as (_ & _ & dm & d' & Hdm & _ & _ & _ & Hnone & _ & _ & Hrows).
  exists dm, d'. split; [exact Hdm|]. split; [exact Hnone|].
  eapply List.Forall_impl; [|exact Hrows].
  intros r (Hname & _ & Hcity & _). split; assumption.
Defined.

(** The row of the item of [numberless_response], joined to the dealer
    without a number. *)
Example numberless_rows :
  map (fun r => (dealer r, city r, vin r))
      (fst (iter_inventory_rows no_float numberless_response))
  = [(PStr "Nameless", PStr "Austin", PStr "X9")].
Proof. vm_compute. reflexivity. Qed.

(** ** Binary64 arithmetic: signs *)

Lemma binary_round_aux_opp (s : bool) (m e : Z) (l : location) :
  binary_round_aux prec emax (negb s) m e l
  = SFopp (binary_round_aux prec emax s m e l).
Proof.
  unfold binary_round_aux.
  destruct (shr_fexp prec emax m e l) as [mrs' e'].
  destruct (shr_fexp prec emax _ e' loc_Exact) as [mrs'' e''].
  destruct (shr_m mrs''); [reflexivity | | reflexivity].
  destruct (Z.leb e'' (emax - prec)); reflexivity.
Qed.

Lemma binary_normalize_opp (m e : Z) :
  m <> 0 ->
  binary_normalize prec emax (- m) e false
  = SFopp (binary_normalize prec emax m e false).
Proof.
  intros Hm. destruct m as [|p|p]; [congruence| |]; simpl; unfold binary_round;
    destruct (shl_align _ _ _) as [mz ez].
  - apply (binary_round_aux_opp false).
  - rewrite <- (binary_round_aux_opp true). reflexivity.
Qed.

(** Swapping the operands of a subtraction changes the sign of the
    difference, a zero difference of equal operands apart. *)
Lemma SF64sub_swap (x y : spec_float) :
  SF64sub y x = SFopp (SF64sub x y)
  \/ (SF64sub x y = S754_zero false /\ SF64sub y x = S754_zero false).
Proof.
  unfold SF64sub.
  destruct x as [sx|sx| |sx mx ex], y as [sy|sy| |sy my ey];
    try (left; reflexivity);
    try (destruct sx, sy; (left; reflexivity) || (right; split; reflexivity)).
  cbn [SFsub]. rewrite (Z.min_comm ey ex).
  set (a := cond_Zopp sx (Z.pos (fst (shl_align mx ex (Z.min ex ey))))).
  set (b := cond_Zopp sy (Z.pos (fst (shl_align my ey (Z.min ex ey))))).
  destruct (Z.eq_dec (a - b) 0) as [Hz|Hz].
  - right. replace (b - a) with 0 by lia. rewrite Hz. split; reflexivity.
  - left. replace (b - a) with (- (a - b)) by lia.
    apply binary_normalize_opp. exact Hz.
Qed.

Lemma SF64div_opp_two (x : spec_float) :
  SF64div (SFopp x) SF_two = SFopp (SF64div x SF_two).
Proof.
  unfold SF64div, SF_two.
  destruct x as [s|s| |s m e]; cbn [SFopp SFdiv]; rewrite ?xorb_false_r; try reflexivity.
  destruct (SFdiv_core_binary prec emax (Z.pos m) e _ _) as [[mz ez] lz].
  apply binary_round_aux_opp.
Qed.

Lemma SF64mul_comm (x y : spec_float) : SF64mul x y = SF64mul y x.
Proof.
  unfold SF64mul.
  destruct x as [sx|sx| |sx mx ex], y as [sy|sy| |sy my ey]; simpl;
    try reflexivity; try (rewrite (xorb_comm sx sy); reflexivity).
  rewrite (xorb_comm sx sy), (Pos.mul_comm mx my), (Z.add_comm ex ey). reflexivity.
Qed.

(** ** The [math] functions and signs *)

Lemma math_1_errors (func : spec_float -> spec_float) (x : spec_float) :
  math_1 func x = Return (func x) \/ math_1 func x = Raise ValueError.
Proof.
  unfold math_1.
  destruct (is_nan (func x) && negb (is_nan x)); [right; reflexivity|].
  destruct (is_inf (func x) && is_finite x); [right | left]; reflexivity.
Qed.

Lemma math_1_odd (func : spec_float -> spec_float) (x : spec_float) :
  func (SFopp x) = SFopp (func x) ->
  math_1 func (SFopp x) = result_map SFopp (math_1 func x).
Proof.
  intros Hodd. unfold math_1. rewrite Hodd.
  destruct (func x) as [s|s| |s m e], x as [s'|s'| |s' m' e']; reflexivity.
Qed.

Lemma float_pow2_opp (M : libm) (x : spec_float) :
  float_pow2 M (SFopp x) = float_pow2 M x.
Proof. destruct x; reflexivity. Qed.

Lemma float_div_two (x : spec_float) : float_div x SF_two = Return (SF64div x SF_two).
Proof. reflexivity. Qed.

(** The term [sin(d / 2) ** 2] is the same for a difference and for the
    difference with the operands swapped. *)
Lemma sin2_half_swap (M : libm) (x y : spec_float) :
  sin_odd M ->
  sin2_half M (SF64sub y x) = sin2_half M (SF64sub x y).
Proof.
  intros Hodd. destruct (SF64sub_swap x y) as [Hopp | [Hxy Hyx]].
  - unfold sin2_half. rewrite !float_div_two. cbn [bind].
    rewrite Hopp, SF64div_opp_two. unfold math_sin.
    rewrite (math_1_odd _ _ (Hodd _)).
    destruct (math_1 (c_sin M) (SF64div (SF64sub x y) SF_two)) as [s|e]; simpl.
    + apply float_pow2_opp.
    + reflexivity.
  - rewrite Hxy, Hyx. reflexivity.
Qed.

Lemma harvesine_unfold (M : libm) (lat1 lon1 lat2 lon2 : spec_float) :
  harvesine M lat1 lon1 lat2 lon2
  = let! s1 := sin2_half M (SF64sub (radians lat2) (radians lat1)) in
    let! c1 := math_cos M (radians lat1) in
    let! c2 := math_cos M (radians lat2) in
    let! s2 := sin2_half M (SF64sub (radians lon2) (radians lon1)) in
    distance_of_a M (SF64add s1 (SF64mul (SF64mul c1 c2) s2)).
Proof.
  unfold harvesine, sin2_half, distance_of_a. rewrite !float_div_two. cbn [bind].
  destruct (math_sin M _) as [s|e]; [cbn [bind] | reflexivity].
  destruct (float_pow2 M s) as [s2|e]; [cbn [bind] | reflexivity].
  destruct (math_cos M _) as [c1|e]; [cbn [bind] | reflexivity].
  destruct (math_cos M _) as [c2|e]; [cbn [bind] | reflexivity].
  destruct (math_sin M _) as [t|e]; [cbn [bind] | reflexivity].
  destruct (float_pow2 M t) as [t2|e]; [cbn [bind] | reflexivity].
  reflexivity.
Qed.

Lemma SFeqb_refl (x : spec_float) : is_nan x = false -> SFeqb x x = true.
Proof.
  destruct x as [s|s| |s m e]; try discriminate; intros _; unfold SFeqb; cbn [SFcompare].
  - reflexivity.
  - destruct s; reflexivity.
  - rewrite Z.compare_refl, Pos.compare_cont_refl. destruct s; reflexivity.
Qed.

(** C6. [harvesine] has the same outcome on two points and on the two
    points swapped: the same exception or the same float, which [==] finds
    equal unless it is a NaN; the sine of the C library is odd. *)
Theorem harvesine_symmetric (M : libm) (lat1 lon1 lat2 lon2 : spec_float) :
  sin_odd M ->
  harvesine M lat1 lon1 lat2 lon2 = harvesine M lat2 lon2 lat1 lon1
  /\ forall d : spec_float,
       harvesine M lat1 lon1 lat2 lon2 = Return d ->
       is_nan d = false ->
       exists d' : spec_float,
         harvesine M lat2 lon2 lat1 lon1 = Return d' /\ SFeqb d d' = true.
Proof.
  intros Hodd.
  assert (Hsame : harvesine M lat1 lon1 lat2 lon2 = harvesine M lat2 lon2 lat1 lon1).
  { rewrite !harvesine_unfold.
    rewrite (sin2_half_swap M (radians lat1) (radians lat2) Hodd).
    rewrite (sin2_half_swap M (radians lon1) (radians lon2) Hodd).
    destruct (sin2_half M (SF64sub (radians lat1) (radians lat2))) as [s1|e];
      [cbn [bind] | reflexivity].
    unfold math_cos.
    destruct (math_1_errors (c_cos M) (radians lat1)) as [-> | ->],
             (math_1_errors (c_cos M) (radians lat2)) as [-> | ->];
      cbn [bind]; try reflexivity.
    rewrite (SF64mul_comm (c_cos M (radians lat1)) (c_cos M (radians lat2))).
    reflexivity. }
  split; [exact Hsame|].
  intros d Hd Hnan. exists d. split.
  - rewrite <- Hsame. exact Hd.
  - apply SFeqb_refl. exact Hnan.
Qed.

Lemma table_sin_odd : sin_odd table_libm.
Proof.
  intros x. unfold table_libm, table_sin. cbn [c_sin].
  destruct x as [s|s| |s m e]; cbn [SFabs SFopp sign_bit];
    try reflexivity; try (destruct s; reflexivity).
  destruct (SF_eqb (S754_finite false m e) rad_8);
    [|destruct (SF_eqb (S754_finite false m e) half_pi)];
    destruct s; reflexivity.
Qed.

Lemma harvesine_symmetric_witness :
  harvesine table_libm austin_lat austin_lon SF_8 SF_0
  = harvesine table_libm SF_8 SF_0 austin_lat austin_lon.
Proof.
  exact (proj1 (harvesine_symmetric table_libm austin_lat austin_lon SF_8 SF_0
                  table_sin_odd)).
Defined.

(** ** Binary64 arithmetic: the size of a product *)

Lemma digits2_pos_size (p : positive) : digits2_pos p = Pos.size p.
Proof. induction p as [p IH|p IH|]; simpl; rewrite ?IH; reflexivity. Qed.

Lemma digits2_pos_gt (p : positive) : Z.pos p < 2 ^ Z.pos (digits2_pos p).
Proof.
  rewrite digits2_pos_size.
  pose proof (Pos.size_gt p) as H.
  apply Pos2Z.pos_lt_pos in H. rewrite Pos2Z.inj_pow in H. exact H.
Qed.

Lemma digits2_pos_le (p : positive) : 2 ^ (Z.pos (digits2_pos p) - 1) <= Z.pos p.
Proof.
  rewrite digits2_pos_size.
  pose proof (Pos.size_le p) as H.
  apply Pos2Z.pos_le_pos in H. rewrite Pos2Z.inj_pow in H.
  replace (Z.pos (Pos.size p)) with (Z.succ (Z.pos (Pos.size p) - 1)) in H by lia.
  rewrite Z.pow_succ_r in H by lia.
  change (Z.pos p~0) with (2 * Z.pos p) in H. lia.
Qed.

Lemma digits2_pos_mul (a b : positive) :
  Z.pos (digits2_pos (a * b)) <= Z.pos (digits2_pos a) + Z.pos (digits2_pos b).
Proof.
  pose proof (digits2_pos_gt a) as Ha.
  pose proof (digits2_pos_gt b) as Hb.
  pose proof (digits2_pos_le (a * b)) as Hab.
  assert (Hlt : 2 ^ (Z.pos (digits2_pos (a * b)) - 1)
                < 2 ^ (Z.pos (digits2_pos a) + Z.pos (digits2_pos b))).
  { rewrite Z.pow_add_r by lia. rewrite Pos2Z.inj_mul in Hab. nia. }
  apply Z.pow_lt_mono_r_iff in Hlt; lia.
Qed.

Lemma Zdigits2_succ (m : Z) : 0 <= m -> Zdigits2 (m + 1) <= Zdigits2 m + 1.
Proof.
  intros Hm. destruct m as [|p|p]; [simpl; lia | | lia].
  change (Z.pos p + 1) with (Z.pos (p + 1)). cbn [Zdigits2].
  pose proof (digits2_pos_gt p) as Hp.
  pose proof (digits2_pos_le (p + 1)) as Hp1.
  assert (Hle : 2 ^ (Z.pos (digits2_pos (p + 1)) - 1) <= 2 ^ Z.pos (digits2_pos p)) by lia.
  apply Z.pow_le_mono_r_iff in Hle; lia.
Qed.

(** Shifting a mantissa that is not negative to the right: it stays so,
    and loses a digit at each step. *)
Lemma shr_1_digits (mrs : shr_record) :
  0 <= shr_m mrs ->
  0 <= shr_m (shr_1 mrs)
  /\ Zdigits2 (shr_m (shr_1 mrs)) = Z.max 0 (Zdigits2 (shr_m mrs) - 1).
Proof.
  destruct mrs as [m r s]. cbn [shr_m]. intros Hm.
  destruct m as [|[p|p|]|p]; cbn [shr_1 shr_m Zdigits2 digits2_pos]; try lia.
Qed.

Lemma iter_shr_1_digits (p : positive) :
  forall mrs : shr_record,
    0 <= shr_m mrs ->
    0 <= shr_m (SpecFloat.iter_pos shr_1 p mrs)
    /\ Zdigits2 (shr_m (SpecFloat.iter_pos shr_1 p mrs))
       = Z.max 0 (Zdigits2 (shr_m mrs) - Z.pos p).
Proof.
  induction p as [p IH|p IH|]; intros mrs Hm; cbn [SpecFloat.iter_pos].
  - destruct (shr_1_digits mrs Hm) as [H1 D1].
    destruct (IH _ H1) as [H2 D2]. destruct (IH _ H2) as [H3 D3].
    split; [exact H3|]. rewrite D3, D2, D1. lia.
  - destruct (IH _ Hm) as [H2 D2]. destruct (IH _ H2) as [H3 D3].
    split; [exact H3|]. rewrite D3, D2. lia.
  - apply shr_1_digits. exact Hm.
Qed.

Lemma shr_record_of_loc_m (m : Z) (l : location) : shr_m (shr_record_of_loc m l) = m.
Proof. destruct l as [|[]]; reflexivity. Qed.

Lemma shr_fexp_bounds (m e : Z) (l : location) :
  0 <= m ->
  let '(mrs, e') := shr_fexp prec emax m e l in
  0 <= shr_m mrs
  /\ e' = Z.max e (fexp prec emax (Zdigits2 m + e))
  /\ Zdigits2 (shr_m mrs) + e' <= Z.max (Zdigits2 m + e) e'.
Proof.
  intros Hm. unfold shr_fexp, shr.
  pose proof (shr_record_of_loc_m m l) as Hrec.
  destruct (fexp prec emax (Zdigits2 m + e) - e) as [|n|n] eqn:Hn.
  - rewrite Hrec. lia.
  - assert (H0 : 0 <= shr_m (shr_record_of_loc m l)) by lia.
    destruct (iter_shr_1_digits n _ H0) as [H1 D1].
    rewrite Hrec in D1. rewrite D1. lia.
  - rewrite Hrec. lia.
Qed.

Lemma round_nearest_even_bounds (m : Z) (l : location) :
  m <= round_nearest_even m l <= m + 1.
Proof.
  unfold round_nearest_even. destruct l as [|[]]; try lia.
  destruct (Z.even m); lia.
Qed.

Lemma Zdigits2_mono (a b : Z) : 0 <= a <= b -> Zdigits2 a <= Zdigits2 b.
Proof.
  intros [Ha Hab]. destruct a as [|p|p]; [|  | lia].
  - destruct b; simpl; lia.
  - destruct b as [|q|q]; try lia. cbn [Zdigits2].
    pose proof (digits2_pos_le p) as Hp. pose proof (digits2_pos_gt q) as Hq.
    assert (Hlt : 2 ^ (Z.pos (digits2_pos p) - 1) < 2 ^ Z.pos (digits2_pos q)) by lia.
    apply Z.pow_lt_mono_r_iff in Hlt; lia.
Qed.

(** Rounding a magnitude below [2^1023] gives a zero or a finite number
    of the sign asked for, never an infinity. *)
Lemma binary_round_aux_finite (s : bool) (m e : Z) (l : location) :
  0 <= m -> e <= 970 -> Zdigits2 m + e <= 1023 ->
  binary_round_aux prec emax s m e l = S754_zero s
  \/ exists m' e', binary_round_aux prec emax s m e l = S754_finite s m' e'.
Proof.
  intros Hm He Hd. unfold binary_round_aux.
  pose proof (shr_fexp_bounds m e l Hm) as H1.
  destruct (shr_fexp prec emax m e l) as [mrs' e'].
  destruct H1 as (Hm' & He' & Hd').
  pose proof (round_nearest_even_bounds (shr_m mrs') (loc_of_shr_record mrs')) as Hr.
  set (m1 := round_nearest_even (shr_m mrs') (loc_of_shr_record mrs')) in *.
  assert (Hm1 : 0 <= m1) by lia.
  pose proof (shr_fexp_bounds m1 e' loc_Exact Hm1) as H2.
  destruct (shr_fexp prec emax m1 e' loc_Exact) as [mrs'' e''].
  destruct H2 as (Hm'' & He'' & _).
  assert (Hd1 : Zdigits2 m1 <= Zdigits2 (shr_m mrs') + 1).
  { transitivity (Zdigits2 (shr_m mrs' + 1)).
    - apply Zdigits2_mono. lia.
    - apply Zdigits2_succ. exact Hm'. }
  assert (Hfin : e'' <= emax - prec).
  { unfold fexp, SpecFloat.emin, emax, prec in *. lia. }
  destruct (shr_m mrs'') as [|p|p]; [left; reflexivity | right | lia].
  apply Z.leb_le in Hfin. rewrite Hfin. eauto.
Qed.

Lemma bounded_digits (m : positive) (e : Z) :
  bounded prec emax m e = true ->
  Z.pos (digits2_pos m) <= 53 /\ e <= 971.
Proof.
  unfold bounded, canonical_mantissa, fexp, SpecFloat.emin, emax, prec.
  intros H. apply andb_true_iff in H as [Hc He].
  apply Z.eqb_eq in Hc. apply Z.leb_le in He. lia.
Qed.

(** The product of two valid numbers whose magnitudes multiply to less
    than [2^1023] is a zero or a finite number. *)
Lemma SF64mul_finite (sx sy : bool) (mx my : positive) (ex ey : Z) :
  ex + ey <= 970 ->
  Z.pos (digits2_pos mx) + ex + (Z.pos (digits2_pos my) + ey) <= 1023 ->
  SF64mul (S754_finite sx mx ex) (S754_finite sy my ey) = S754_zero (xorb sx sy)
  \/ exists m' e',
       SF64mul (S754_finite sx mx ex) (S754_finite sy my ey)
       = S754_finite (xorb sx sy) m' e'.
Proof.
  intros He Hd. unfold SF64mul. cbn [SFmul].
  apply binary_round_aux_finite; [lia | exact He |].
  cbn [Zdigits2]. pose proof (digits2_pos_mul mx my). lia.
Qed.

(** ** [harvesine] on one point *)

Lemma SF64sub_diag (x : spec_float) :
  is_finite x = true -> SF64sub x x = S754_zero false.
Proof.
  destruct x as [s|s| |s m e]; try discriminate; intros _.
  - destruct s; reflexivity.
  - unfold SF64sub. cbn [SFsub]. rewrite Z.sub_diag. reflexivity.
Qed.

Lemma radians_finite (x : spec_float) :
  valid_binary prec emax x = true -> is_finite x = true ->
  is_finite (radians x) = true.
Proof.
  destruct x as [s|s| |s m e]; try discriminate; intros Hvalid _.
  - reflexivity.
  - cbn [valid_binary] in Hvalid. apply bounded_digits in Hvalid as [Hd He].
    unfold radians, degToRad.
    destruct (SF64mul_finite s false m 5030569068109113 e (-58)) as [-> | (m' & e' & ->)];
      try reflexivity; try lia.
    change (Z.pos (digits2_pos 5030569068109113)) with 53. lia.
Qed.

Lemma sin2_half_zero (M : libm) :
  sin_zero M -> sin2_half M (S754_zero false) = Return (S754_zero false).
Proof.
  intros Hsin. unfold sin2_half. rewrite float_div_two. cbn [bind].
  change (SF64div (S754_zero false) SF_two) with (S754_zero false).
  unfold math_sin, math_1. rewrite Hsin. reflexivity.
Qed.

(** A float of absolute value at most one. *)
Lemma at_most_one_digits (s : bool) (m : positive) (e : Z) :
  bounded prec emax m e = true ->
  SFleb (SFabs (S754_finite s m e)) SF_one = true ->
  Z.pos (digits2_pos m) + e <= 1 /\ e <= -52.
Proof.
  intros Hvalid Hle. apply bounded_digits in Hvalid as [Hd _].
  unfold SFleb, SF_one in Hle. cbn [SFabs SFcompare] in Hle.
  destruct (Z.compare_spec e (-52)) as [He|He|He]; [| |discriminate Hle]; lia.
Qed.

Lemma cos_square_times_zero (c : spec_float) :
  valid_binary prec emax c = true ->
  SFleb (SFabs c) SF_one = true ->
  SF64mul (SF64mul c c) (S754_zero false) = S754_zero false.
Proof.
  destruct c as [s|s| |s m e]; try discriminate; intros Hvalid Hle.
  - destruct s; reflexivity.
  - cbn [valid_binary] in Hvalid.
    destruct (at_most_one_digits s m e Hvalid Hle) as [Hd He].
    destruct (SF64mul_finite s s m m e e) as [-> | (m' & e' & ->)]; try lia;
      rewrite xorb_nilpotent; reflexivity.
Qed.

Lemma math_cos_bounded (M : libm) (x : spec_float) :
  cos_bounded M -> is_finite x = true ->
  math_cos M x = Return (c_cos M x)
  /\ valid_binary prec emax (c_cos M x) = true
  /\ SFleb (SFabs (c_cos M x)) SF_one = true.
Proof.
  intros Hcos Hx. destruct (Hcos x Hx) as [Hvalid Hle].
  split; [|split; assumption].
  unfold math_cos, math_1.
  destruct (c_cos M x) as [s|s| |s m e]; try discriminate Hle; reflexivity.
Qed.

Lemma float_div_zero_positive (speed : spec_float) :
  SFltb (S754_zero false) speed = true ->
  float_div (S754_zero false) speed = Return (S754_zero false).
Proof.
  destruct speed as [s|s| |s m e]; try discriminate; destruct s; try discriminate;
    reflexivity.
Qed.

(** C7. On a point taken twice (finite coordinates) [harvesine] returns
    the float zero, and [driving_time] returns zero for every positive
    speed; the C library's sine of zero is zero and its cosines are at
    most one in absolute value. *)
Theorem harvesine_same_point (M : libm) (lat lon : spec_float) :
  sin_zero M -> cos_bounded M ->
  valid_binary prec emax lat = true -> is_finite lat = true ->
  valid_binary prec emax lon = true -> is_finite lon = true ->
  harvesine M lat lon lat lon = Return (S754_zero false)
  /\ forall speed_mph : spec_float,
       SFltb (S754_zero false) speed_mph = true ->
       driving_time M lat lon lat lon speed_mph = Return (S754_zero false).
Proof.
  intros Hsin Hcos Hvlat Hflat Hvlon Hflon.
  assert (Hdist : harvesine M lat lon lat lon = Return (S754_zero false)).
  { rewrite harvesine_unfold.
    rewrite (SF64sub_diag _ (radians_finite lat Hvlat Hflat)).
    rewrite (SF64sub_diag _ (radians_finite lon Hvlon Hflon)).
    rewrite (sin2_half_zero M Hsin). cbn [bind].
    destruct (math_cos_bounded M (radians lat) Hcos (radians_finite lat Hvlat Hflat))
      as (-> & Hvalid & Hle).
    cbn [bind]. rewrite (cos_square_times_zero _ Hvalid Hle). reflexivity. }
  split; [exact Hdist|].
  intros speed Hspeed. unfold driving_time. rewrite Hdist. cbn [bind].
  apply float_div_zero_positive. exact Hspeed.
Qed.

Lemma table_cos_bounded : cos_bounded table_libm.
Proof.
  intros x Hx. unfold table_libm, table_cos. cbn [c_cos].
  destruct x as [s|s| |s m e]; try discriminate Hx; cbn [SFabs];
    destruct (SF_eqb _ rad_8); split; reflexivity.
Qed.

Lemma harvesine_same_point_witness :
  harvesine table_libm austin_lat austin_lon austin_lat austin_lon
  = Return (S754_zero false)
  /\ forall speed_mph : spec_float,
       SFltb (S754_zero false) speed_mph = true ->
       driving_time table_libm austin_lat austin_lon austin_lat austin_lon speed_mph
       = Return (S754_zero false).
Proof.
  apply (harvesine_same_point table_libm austin_lat austin_lon);
    [reflexivity | exact table_cos_bounded
     | reflexivity | reflexivity | reflexivity | reflexivity].
Defined.

(** ** [harvesine] on two antipodal points *)

Lemma math_1_value (func : spec_float -> spec_float) (x v : spec_float) :
  func x = v -> is_nan v = false -> is_inf v = false -> math_1 func x = Return v.
Proof.
  intros <- Hnan Hinf. unfold math_1. rewrite Hnan, Hinf. reflexivity.
Qed.

(** C5. [harvesine] raises on the antipodal points (8, 0) and (-8, 180):
    with the sines, the cosines and the square the C library returns
    there (the binary64 numbers nearest to the exact values), the
    haversine term [a] is [1 + 2^-52], above one, and the square root of
    [1 - a] is a [ValueError] ("math domain error"). *)
Theorem harvesine_antipodal_raises (M : libm) :
  c_sin M (SFopp rad_8) = SFopp sin_rad_8 ->
  c_pow M sin_rad_8 SF_two = sin2_rad_8 ->
  c_cos M rad_8 = cos_rad_8 ->
  c_cos M (SFopp rad_8) = cos_rad_8 ->
  c_sin M half_pi = SF_one ->
  let a := S754_finite false 4503599627370497 (-52) in
  SFltb SF_one a = true
  /\ (let! s1 := sin2_half M (SF64sub (radians (SFopp SF_8)) (radians SF_8)) in
      let! c1 := math_cos M (radians SF_8) in
      let! c2 := math_cos M (radians (SFopp SF_8)) in
      let! s2 := sin2_half M (SF64sub (radians SF_180) (radians SF_0)) in
      Return (SF64add s1 (SF64mul (SF64mul c1 c2) s2))) = Return a
  /\ math_sqrt (SF64sub SF_one a) = Raise ValueError
  /\ harvesine M SF_8 SF_0 (SFopp SF_8) SF_180 = Raise ValueError.
Proof.
  intros Hsin Hpow Hcos Hcos' Hsin' a.
  assert (S1 : sin2_half M (SF64sub (radians (SFopp SF_8)) (radians SF_8))
               = Return sin2_rad_8).
  { unfold sin2_half. rewrite float_div_two. cbn [bind].
    replace (SF64div _ SF_two) with (SFopp rad_8) by (vm_compute; reflexivity).
    unfold math_sin. rewrite (math_1_value _ _ _ Hsin eq_refl eq_refl). cbn [bind].
    unfold float_pow2, sin_rad_8 at 1. cbn [SFopp].
    change (S754_finite false 5014239404989977 (-55)) with sin_rad_8.
    rewrite Hpow. reflexivity. }
  assert (S2 : sin2_half M (SF64sub (radians SF_180) (radians SF_0)) = Return SF_one).
  { unfold sin2_half. rewrite float_div_two. cbn [bind].
    replace (SF64div _ SF_two) with half_pi by (vm_compute; reflexivity).
    unfold math_sin. rewrite (math_1_value _ _ _ Hsin' eq_refl eq_refl). reflexivity. }
  assert (C1 : math_cos M (radians SF_8) = Return cos_rad_8).
  { replace (radians SF_8) with rad_8 by (vm_compute; reflexivity).
    apply math_1_value; [exact Hcos | reflexivity | reflexivity]. }
  assert (C2 : math_cos M (radians (SFopp SF_8)) = Return cos_rad_8).
  { replace (radians (SFopp SF_8)) with (SFopp rad_8) by (vm_compute; reflexivity).
    apply math_1_value; [exact Hcos' | reflexivity | reflexivity]. }
  assert (A : SF64add sin2_rad_8 (SF64mul (SF64mul cos_rad_8 cos_rad_8) SF_one) = a)
    by (vm_compute; reflexivity).
  split; [reflexivity|]. split; [|split].
  - rewrite S1, C1, C2, S2. cbn [bind]. rewrite A. reflexivity.
  - vm_compute. reflexivity.
  - rewrite harvesine_unfold, S1, C1, C2, S2. cbn [bind]. rewrite A.
    vm_compute. reflexivity.
Qed.

Lemma harvesine_antipodal_raises_witness :
  harvesine table_libm SF_8 SF_0 (SFopp SF_8) SF_180 = Raise ValueError.
Proof.
  apply (harvesine_antipodal_raises table_libm); reflexivity.
Defined.

(** * Further properties *)

(** ** [format_price] *)

Lemma isdigit_first_char (c : ascii) (rest : string) :
  isdigit_char c = false -> Ascii.eqb c "." = false ->
  isdigit (remove_first_dot (String c rest)) = false.
Proof. intros Hd Hdot. simpl. rewrite Hdot. simpl. rewrite Hd. reflexivity. Qed.

Lemma format_price_dollar_text (fr : spec_float -> string) (x : string) :
  format_price fr (PStr (String "$" x)) = Return (String "$" x).
Proof.
  unfold format_price. rewrite isdigit_first_char by reflexivity. reflexivity.
Qed.

(** X1. [format_price] leaves its own output alone: a price text it has
    produced, given back to it as a string, is returned unchanged. *)
Theorem format_price_idempotent (fr : spec_float -> string) (v : pyval) (p : string) :
  format_price fr v = Return p -> format_price fr (PStr p) = Return p.
Proof.
  destruct v as [|b|z|f|s|l|kvs]; simpl.
  - intros [= <-]. reflexivity.
  - destruct (float_of_int _) as [f|e]; simpl; [|discriminate].
    intros [= <-]. apply (format_price_dollar_text fr).
  - destruct (float_of_int _) as [f|e]; simpl; [|discriminate].
    intros [= <-]. apply (format_price_dollar_text fr).
  - intros [= <-]. apply (format_price_dollar_text fr).
  - destruct (isdigit (remove_first_dot s)) eqn:Hguard.
    + destruct (float_of_str s) as [f|e]; simpl; [|discriminate].
      intros [= <-]. apply (format_price_dollar_text fr).
    + intros [= <-]. simpl. rewrite Hguard. reflexivity.
  - intros [= <-]. reflexivity.
  - intros [= <-]. reflexivity.
Qed.

Lemma format_price_idempotent_witness :
  format_price no_float (PStr "$45,000") = Return "$45,000".
Proof.
  apply (format_price_idempotent no_float (PInt 45000)). reflexivity.
Defined.






(** ** Binary64 arithmetic: integers *)

Lemma iter_xO_value (m d : positive) :
  Z.pos (Pos.iter xO m d) = Z.pos m * 2 ^ Z.pos d.
Proof.
  induction d as [|d IH] using Pos.peano_ind.
  - cbn [Pos.iter]. rewrite Pos2Z.inj_xO. lia.
  - rewrite Pos.iter_succ, Pos2Z.inj_xO, IH, Pos2Z.inj_succ, Z.pow_succ_r by lia. lia.
Qed.

Lemma iter_xO_digits (m d : positive) :
  Z.pos (digits2_pos (Pos.iter xO m d)) = Z.pos (digits2_pos m) + Z.pos d.
Proof.
  induction d as [|d IH] using Pos.peano_ind.
  - simpl. lia.
  - rewrite Pos.iter_succ. cbn [digits2_pos]. rewrite Pos2Z.inj_succ, IH. lia.
Qed.

(** A mantissa in canonical position is not rounded. *)
Lemma binary_round_aux_canonical (s : bool) (m : positive) (e : Z) :
  bounded prec emax m e = true ->
  binary_round_aux prec emax s (Z.pos m) e loc_Exact = S754_finite s m e.
Proof.
  intros Hb. unfold bounded, canonical_mantissa in Hb.
  apply andb_true_iff in Hb as [Hc He]. apply Z.eqb_eq in Hc.
  unfold binary_round_aux, shr_fexp. cbn [Zdigits2 shr_record_of_loc].
  rewrite Hc, Z.sub_diag. cbn [shr shr_m loc_of_shr_record round_nearest_even].
  cbn [Zdigits2 shr_record_of_loc]. rewrite Hc, Z.sub_diag. cbn [shr shr_m].
  rewrite He. reflexivity.
Qed.

(** The float of an integer of at most 53 bits is the integer itself. *)
Lemma binary_round_exact (s : bool) (p : positive) :
  Z.pos (digits2_pos p) <= 53 ->
  exists (m : positive) (k : Z),
    binary_round prec emax s p 0 = S754_finite s m (- k)
    /\ 0 <= k /\ Z.pos m = Z.pos p * 2 ^ k.
Proof.
  intros Hd. unfold binary_round, shl_align.
  assert (Hf : fexp prec emax (Z.pos (digits2_pos p) + 0) = Z.pos (digits2_pos p) - 53).
  { unfold fexp, SpecFloat.emin, emax, prec. lia. }
  rewrite Hf.
  destruct (Z.pos (digits2_pos p) - 53 - 0) as [|d|d] eqn:Hshift; try lia.
  - exists p, 0. rewrite binary_round_aux_canonical.
    + split; [reflexivity|]. split; [lia|]. lia.
    + unfold bounded, canonical_mantissa. rewrite Hf.
      apply andb_true_iff. split; [apply Z.eqb_eq | apply Z.leb_le]; unfold emax, prec; lia.
  - exists (Pos.iter xO p d), (Z.pos d).
    replace (Z.pos (digits2_pos p) - 53) with (- Z.pos d) by lia.
    rewrite binary_round_aux_canonical.
    + split; [reflexivity|]. split; [lia|]. apply iter_xO_value.
    + unfold bounded, canonical_mantissa, fexp, SpecFloat.emin, emax, prec.
      rewrite iter_xO_digits.
      apply andb_true_iff. split; [apply Z.eqb_eq | apply Z.leb_le]; lia.
Qed.


Lemma digits2_pos_below (p : positive) (n : Z) :
  0 <= n -> Z.pos p < 2 ^ n -> Z.pos (digits2_pos p) <= n.
Proof.
  intros Hn Hp. pose proof (digits2_pos_le p) as Hle.
  assert (Hlt : 2 ^ (Z.pos (digits2_pos p) - 1) < 2 ^ n) by lia.
  apply Z.pow_lt_mono_r_iff in Hlt; lia.
Qed.




(** ** The digits [format_price] prints *)

Lemma round_half_even_scaled (m p : positive) (k : Z) :
  0 <= k -> Z.pos m = Z.pos p * 2 ^ k -> round_half_even m (- k) = Z.pos p.
Proof.
  intros Hk Hm. destruct k as [|k|k]; [| |lia].
  - simpl. lia.
  - change (- Z.pos k) with (Z.neg k). unfold round_half_even.
    change (Z.pow_pos 2 k) with (2 ^ Z.pos k). rewrite Hm.
    assert (Hd : 0 < 2 ^ Z.pos k) by (apply Z.pow_pos_nonneg; lia).
    rewrite Z.mod_mul, Z.div_mul by lia.
    destruct (Z.compare_spec (2 * 0) (2 ^ Z.pos k)); lia.
Qed.

Lemma group_rev_keeps_digits (n : nat) :
  forall l : list ascii,
    (length l <= n)%nat ->
    List.filter not_comma (group_rev l) = List.filter not_comma l.
Proof.
  induction n as [|n IH]; intros l Hlen.
  - destruct l; [reflexivity | simpl in Hlen; lia].
  - destruct l as [|a [|b [|c [|d rest]]]]; try reflexivity.
    change (group_rev (a :: b :: c :: d :: rest))
      with (a :: b :: c :: ","%char :: group_rev (d :: rest)).
    assert (Hrest : List.filter not_comma (group_rev (d :: rest))
                    = List.filter not_comma (d :: rest))
      by (apply IH; simpl in *; lia).
    change (a :: b :: c :: ","%char :: group_rev (d :: rest))
      with ([a; b; c; ","%char] ++ group_rev (d :: rest))%list.
    change (a :: b :: c :: d :: rest) with ([a; b; c] ++ d :: rest)%list.
    rewrite !List.filter_app, Hrest. f_equal.
    all: cbn [List.filter]; change (not_comma ",") with false;
      destruct (not_comma a), (not_comma b), (not_comma c); reflexivity.
Qed.

Lemma without_commas_of_list (l : list ascii) :
  without_commas (string_of_list_ascii l)
  = string_of_list_ascii (List.filter not_comma l).
Proof.
  induction l as [|c l IH]; simpl; [reflexivity|].
  unfold not_comma at 1. destruct (Ascii.eqb c ","); simpl; rewrite IH; reflexivity.
Qed.

(** Grouping adds commas and nothing else. *)
Lemma without_commas_group_thousands (s : string) :
  without_commas (group_thousands s) = without_commas s.
Proof.
  unfold group_thousands.
  rewrite without_commas_of_list, List.filter_rev.
  rewrite (group_rev_keeps_digits _ _ (le_n _)).
  rewrite List.filter_rev, List.rev_involutive, <- without_commas_of_list.
  rewrite string_of_list_ascii_of_string. reflexivity.
Qed.

Lemma without_commas_digits (s : string) :
  all_chars is_ascii_digit s = true -> without_commas s = s.
Proof.
  induction s as [|c s IH]; simpl; [reflexivity|].
  intros H. apply andb_true_iff in H as [Hc Hs].
  destruct (Ascii.eqb_spec c ",") as [->|_]; [discriminate Hc|].
  rewrite (IH Hs). reflexivity.
Qed.

Lemma string_of_uint_digits (d : Decimal.uint) :
  all_chars is_ascii_digit (NilEmpty.string_of_uint d) = true.
Proof. induction d; simpl; try reflexivity; exact IHd. Qed.

Lemma str_of_Z_digits (p : positive) :
  all_chars is_ascii_digit (str_of_Z (Z.pos p)) = true.
Proof.
  unfold str_of_Z. cbn [Z.to_int NilZero.string_of_int]. unfold NilZero.string_of_uint.
  destruct (Pos.to_uint p); try reflexivity; apply string_of_uint_digits.
Qed.

(** X3. An [int] of absolute value below [2^53] is printed exactly:
    [format_price] returns "$" followed by a text that, without its commas,
    is the decimal text of the integer.  Above that the digits can differ:
    [2^53 + 1] is printed as 9,007,199,254,740,992. *)
Theorem format_price_int_exact (fr : spec_float -> string) :
  (forall z : Z,
      Z.abs z < 2 ^ 53 ->
      exists text : string,
        format_price fr (PInt z) = Return (String "$" text)
        /\ without_commas text = str_of_Z z)
  /\ format_price fr (PInt (2 ^ 53 + 1)) = Return "$9,007,199,254,740,992".
Proof.
  split; [|vm_compute; reflexivity].
  intros z Hz. unfold format_price, float_of_int.
  destruct z as [|p|p]; cbn [binary_normalize].
  - exists "0". split; reflexivity.
  - destruct (binary_round_exact false p) as (m & k & -> & Hk & Hm).
    { apply digits2_pos_below; [lia | exact Hz]. }
    cbn [is_inf bind format_comma_0f]. rewrite (round_half_even_scaled m p k Hk Hm).
    exists (group_thousands (str_of_Z (Z.pos p))). split; [reflexivity|].
    rewrite without_commas_group_thousands.
    apply without_commas_digits, str_of_Z_digits.
  - destruct (binary_round_exact true p) as (m & k & -> & Hk & Hm).
    { apply digits2_pos_below; [lia | exact Hz]. }
    cbn [is_inf bind format_comma_0f]. rewrite (round_half_even_scaled m p k Hk Hm).
    exists (String "-" (group_thousands (str_of_Z (Z.pos p)))). split; [reflexivity|].
    change (str_of_Z (Z.neg p)) with (String "-" (str_of_Z (Z.pos p))).
    cbn [without_commas]. change (Ascii.eqb "-" ",") with false. cbv iota.
    rewrite without_commas_group_thousands.
    rewrite (without_commas_digits _ (str_of_Z_digits p)). reflexivity.
Qed.

Lemma format_price_int_exact_witness :
  exists text : string,
    format_price no_float (PInt (-1234567)) = Return (String "$" text)
    /\ without_commas text = str_of_Z (-1234567).
Proof.
  apply (proj1 (format_price_int_exact no_float) (-1234567)). reflexivity.
Defined.

(** ** [build_dealer_map] *)




Lemma last_dealer_is_some (fr : spec_float -> string) (k : string) (dealers : list pyval) :
  is_Some (last_dealer fr k dealers) <-> In k (map (dealer_key fr) dealers).
Proof.
  split.
  - intros [d Hd]. unfold last_dealer in Hd.
    apply List.find_some in Hd as [Hin Hk]. apply String.eqb_eq in Hk. subst k.
    apply in_map, List.in_rev. exact Hin.
  - intros Hin. apply in_map_iff in Hin as (d & Hk & Hin).
    destruct (last_dealer_some fr k dealers d Hin Hk) as (d' & -> & _). eauto.
Qed.

Lemma add_dealers_size (fr : spec_float -> string) (dealers : list pyval) :
  forall dm dm' : gmap string pyval,
    add_dealers fr dm dealers = Return dm' ->
    (size dm' <= size dm + length dealers)%nat.
Proof.
  induction dealers as [|d rest IH]; intros dm dm' Hrun; simpl in Hrun.
  - injection Hrun as <-. simpl. lia.
  - destruct (is_dict d) eqn:Hd.
    + rewrite (add_dealer_dict fr dm d Hd) in Hrun. cbn [bind] in Hrun.
      apply IH in Hrun. simpl.
      pose proof (map_size_insert (dealer_key fr d) (dealer_record d) dm) as Hins.
      destruct (dm !! dealer_key fr d); unfold id in Hins; lia.
    + rewrite (add_dealer_not_dict fr dm d Hd) in Hrun. discriminate Hrun.
Qed.

(** X5. The keys of the map [build_dealer_map] returns are exactly the
    strings of the dealers' numbers, so the map has at most as many
    entries as the response has dealers, and every entry is a record with
    the nine keys of a dealer. *)
Theorem build_dealer_map_keys (fr : spec_float -> string) (data : pyval)
    (dm : gmap string pyval) :
  is_dict data = true ->
  dict_list (field data "dealers" (PList [])) = true ->
  build_dealer_map fr data = Return dm ->
  (forall k : string,
      is_Some (dm !! k) <-> In k (map (fun d => py_str fr (field d "DealerNumber" PNone))
                                      (dealers_of data)))
  /\ (size dm <= length (dealers_of data))%nat
  /\ (forall (k : string) (record : pyval),
         dm !! k = Some record ->
         exists kvs : list (string * pyval),
           record = PDict kvs
           /\ map fst kvs = ["name"; "address1"; "city"; "state"; "postal"; "phone";
                             "lat"; "lon"; "retail_url"]).
Proof.
  intros Hdata Hdealers Hrun.
  destruct (build_dealer_map_shaped fr data Hdata Hdealers) as (dm' & Hrun' & Hlook).
  rewrite Hrun in Hrun'. injection Hrun' as <-.
  split; [|split].
  - intros k. rewrite Hlook. rewrite <- (last_dealer_is_some fr k (dealers_of data)).
    destruct (last_dealer fr k (dealers_of data)); simpl; split; intros [x Hx];
      try discriminate Hx; eauto.
  - unfold build_dealer_map in Hrun. rewrite (py_get_is_dict data _ _ Hdata) in Hrun.
    unfold dealers_of. destruct (dict_list_inv _ Hdealers) as (ds & Hds & _).
    rewrite Hds in *. cbn [bind py_iter] in Hrun.
    apply add_dealers_size in Hrun. rewrite map_size_empty in Hrun. lia.
  - intros k record Hk. rewrite Hlook in Hk.
    destruct (last_dealer fr k (dealers_of data)) as [d|]; [|discriminate Hk].
    injection Hk as <-. eexists. split; reflexivity.
Qed.

Lemma build_dealer_map_keys_witness :
  exists dm : gmap string pyval,
    build_dealer_map no_float twice_response = Return dm
    /\ (size dm <= 2)%nat
    /\ (is_Some (dm !! "7") <-> In "7" ["7"; "7"]).
Proof.
  destruct (build_dealer_map_shaped no_float twice_response eq_refl eq_refl)
    as (dm & Hrun & _).
  destruct (build_dealer_map_keys no_float twice_response dm eq_refl eq_refl Hrun)
    as (Hkeys & Hsize & _).
  exists dm. split; [exact Hrun|]. split; [exact Hsize | exact (Hkeys "7")].
Defined.

Lemma same_key_same_dealer (fr : spec_float -> string) (dealers : list pyval) (x y : pyval) :
  List.NoDup (map (dealer_key fr) dealers) ->
  In x dealers -> In y dealers -> dealer_key fr x = dealer_key fr y -> x = y.
Proof.
  induction dealers as [|d rest IH]; simpl; [intros _ []|].
  intros Hnd Hx Hy Hk. apply List.NoDup_cons_iff in Hnd as [Hd Hrest].
  destruct Hx as [<-|Hx], Hy as [<-|Hy]; try reflexivity.
  - exfalso. apply Hd. rewrite Hk. apply in_map. exact Hy.
  - exfalso. apply Hd. rewrite <- Hk. apply in_map. exact Hx.
  - apply IH; assumption.
Qed.

Lemma last_dealer_permutation (fr : spec_float -> string) (k : string)
    (dealers dealers' : list pyval) :
  List.NoDup (map (dealer_key fr) dealers) ->
  Permutation dealers dealers' ->
  last_dealer fr k dealers = last_dealer fr k dealers'.
Proof.
  intros Hnd Hperm.
  destruct (last_dealer fr k dealers) as [d|] eqn:Hd.
  - unfold last_dealer in Hd. apply List.find_some in Hd as [Hin Hk].
    apply String.eqb_eq in Hk. apply List.in_rev in Hin.
    assert (Hin' : In d dealers').
    { apply list_elem_of_In. rewrite <- Hperm. apply list_elem_of_In. exact Hin. }
    destruct (last_dealer_some fr k dealers' d Hin' Hk) as (d' & -> & Hd' & Hk').
    f_equal. apply (same_key_same_dealer fr dealers); try assumption.
    + apply list_elem_of_In. rewrite Hperm. apply list_elem_of_In. exact Hd'.
    + congruence.
  - destruct (last_dealer fr k dealers') as [d'|] eqn:Hd'; [|reflexivity].
    exfalso. unfold last_dealer in Hd'. apply List.find_some in Hd' as [Hin Hk].
    apply String.eqb_eq in Hk. apply List.in_rev in Hin.
    assert (Hin' : In d' dealers).
    { apply list_elem_of_In. rewrite Hperm. apply list_elem_of_In. exact Hin. }
    destruct (last_dealer_some fr k dealers d' Hin' Hk) as (d'' & Hsome & _).
    rewrite Hsome in Hd. discriminate Hd.
Qed.

(** X6. When the dealers have distinct numbers, their order does not
    matter: two responses whose dealer lists are permutations of each other
    give the same dealer map. *)
Theorem build_dealer_map_order (fr : spec_float -> string) (data data' : pyval) :
  is_dict data = true -> dict_list (field data "dealers" (PList [])) = true ->
  is_dict data' = true -> dict_list (field data' "dealers" (PList [])) = true ->
  List.NoDup (map (fun d => py_str fr (field d "DealerNumber" PNone)) (dealers_of data)) ->
  Permutation (dealers_of data) (dealers_of data') ->
  build_dealer_map fr data = build_dealer_map fr data'.
Proof.
  intros Hdata Hdealers Hdata' Hdealers' Hnd Hperm.
  destruct (build_dealer_map_shaped fr data Hdata Hdealers) as (dm & -> & Hlook).
  destruct (build_dealer_map_shaped fr data' Hdata' Hdealers') as (dm' & -> & Hlook').
  f_equal. apply map_eq. intros k.
  rewrite Hlook, Hlook', (last_dealer_permutation fr k _ _ Hnd Hperm). reflexivity.
Qed.

Lemma build_dealer_map_order_witness :
  build_dealer_map no_float two_dealers = build_dealer_map no_float two_dealers_swapped.
Proof.
  apply (build_dealer_map_order no_float two_dealers two_dealers_swapped);
    try reflexivity.
  - repeat constructor; simpl; intuition discriminate.
  - apply perm_swap.
Defined.

(** ** [iter_inventory_rows] *)

Lemma py_get_return (v : pyval) (k : string) (d x : pyval) :
  py_get v k d = Return x -> is_dict v = true /\ x = field v k d.
Proof.
  destruct v; simpl; intros H; try discriminate H.
  injection H as <-. split; reflexivity.
Qed.

(** A row of an item is the join of the item, of one of its VINs and of
    the dealer record under the item's key. *)
Lemma item_rows_row_join (fr : spec_float -> string) (dm : gmap string pyval)
    (item : pyval) (r : row) :
  In r (fst (item_rows fr dm item)) ->
  r = row_of fr (joined fr dm item) item (vin r)
  /\ returns (format_price fr (field item "ModelMSRP" PNone)) = true.
Proof.
  unfold item_rows. intros Hin.
  destruct (is_dict item) eqn:Hitem.
  2:{ rewrite (py_get_not_dict item _ _ Hitem) in Hin. destruct Hin. }
  repeat (let a := fresh "a" in
          let Hget := fresh "Hget" in
          apply gen_bind_lift_rows in Hin as (a & Hget & Hin);
          try (rewrite (py_get_is_dict item _ _ Hitem) in Hget; injection Hget as <-)).
  apply for_each_rows_inv in Hin as (entry & Hentry & Hin).
  unfold vin_row in Hin.
  apply gen_bind_lift_rows in Hin as (v & Hv & Hin).
  destruct (truthy v) eqn:Htv; [|destruct Hin].
  cbn [negb] in Hin.
  apply gen_bind_lift_rows in Hin as (r' & Hr' & Hin).
  destruct Hin as [<-|[]].
  fold (dealer_key fr item) in *. fold (joined fr dm item) in *.
  apply py_get_return in Hget as [Hinfo ->].
  rewrite !(py_get_is_dict (joined fr dm item) _ _ Hinfo) in Hr'. cbn [bind] in Hr'.
  injection Hr' as <-. cbn [vin].
  unfold row_of, item_price. rewrite Hget0. split; reflexivity.
Qed.

(** X7. Every row [iter_inventory_rows] yields, whatever the response, is
    the join of an inventory item with the record the dealer map holds
    under the item's key (or with the defaults of an unknown dealer): the
    dealer fields come from that record, and trim, inventory type, color,
    interior color and price from the item, whose price [format_price]
    accepted. *)
Theorem rows_are_joins (fr : spec_float -> string) (data : pyval) (r : row) :
  In r (fst (iter_inventory_rows fr data)) ->
  exists (dm : gmap string pyval) (item : pyval),
    build_dealer_map fr data = Return dm
    /\ In item (inventory_items data)
    /\ In (vin r) (vin_values item)
    /\ format_price fr (field item "ModelMSRP" PNone) = Return (price r)
    /\ trim r = field item "ModelTrim" (PStr "")
    /\ inv_type r = field item "InventoryType" (PStr "")
    /\ interior_color r = field item "InteriorColor" (PStr "")
    /\ let info := default (PDict []) (dm !! py_str fr (field item "DealerNumber" PNone)) in
       dealer r = field info "name" (PStr "Unknown dealer")
       /\ address1 r = field info "address1" (PStr "")
       /\ city r = field info "city" (PStr "")
       /\ state r = field info "state" (PStr "")
       /\ postal r = field info "postal" (PStr "")
       /\ phone r = field info "phone" (PStr "")
       /\ lat r = field info "lat" (PStr "")
       /\ lon r = field info "lon" (PStr "")
       /\ retail_url r = field info "retail_url" (PStr "").
Proof.
  intros Hin.
  destruct (iter_inventory_rows_row_inv fr data r Hin) as (dm & item & Hdm & Hitem & Hr).
  destruct (item_rows_row_inv fr dm item r Hr) as (_ & Hvin & _).
  destruct (item_rows_row_join fr dm item r Hr) as (Hjoin & Hprice).
  exists dm, item. split; [exact Hdm|]. split; [exact Hitem|]. split; [exact Hvin|].
  rewrite Hjoin.
  destruct (format_price fr (field item "ModelMSRP" PNone)) as [p|e] eqn:Hp;
    [|discriminate Hprice].
  cbv zeta. repeat split.
  unfold row_of, item_price. cbn [price]. rewrite Hp. reflexivity.
Qed.

Lemma rows_are_joins_witness :
  exists (dm : gmap string pyval) (item : pyval),
    build_dealer_map no_float two_dealers = Return dm
    /\ In item (inventory_items two_dealers)
    /\ format_price no_float (field item "ModelMSRP" PNone) = Return "$45,000"
    /\ PStr "Acme"
       = field (default (PDict []) (dm !! py_str no_float (field item "DealerNumber" PNone)))
               "name" (PStr "Unknown dealer").
Proof.
  destruct (rows_are_joins no_float two_dealers
              (row_of no_float (dealer_record dealer_a) item_of_a (PStr "X1")))
    as (dm & item & Hdm & Hitem & _ & Hprice & _ & _ & _ & Hname & _).
  { vm_compute. left. reflexivity. }
  exists dm, item. repeat split; assumption.
Defined.

(** An item whose "VINs" a loop cannot visit raises, and yields no row. *)
Lemma item_rows_vins_not_iterable (fr : spec_float -> string) (dm : gmap string pyval)
    (item : pyval) (e : exn) :
  (forall k v, dm !! k = Some v -> is_dict v = true) ->
  is_dict item = true ->
  returns (format_price fr (field item "ModelMSRP" PNone)) = true ->
  py_iter (field item "VINs" (PList [])) = Raise e ->
  item_rows fr dm item = ([], Raise e).
Proof.
  intros Hdm Hitem Hprice Hiter.
  pose proof (joined_is_dict fr dm item Hdm) as Hinfo.
  unfold item_rows.
  rewrite !(py_get_is_dict item _ _ Hitem). cbn [lift gen_bind app].
  fold (dealer_key fr item). fold (joined fr dm item).
  rewrite (py_get_is_dict (joined fr dm item) _ _ Hinfo).
  destruct (format_price fr (field item "ModelMSRP" PNone)) as [p|e']; [|discriminate Hprice].
  rewrite Hiter. reflexivity.
Qed.

(** X8. The generator fails fast and keeps what it has yielded: when the
    items before some item run to their end and that item raises, the
    rows of the items before and the rows that item yielded before
    raising are yielded, the exception is the item's, and the items after
    it are never looked at. *)
Theorem rows_until_failure (fr : spec_float -> string) (data : pyval)
    (dm : gmap string pyval) (before after : list pyval) (bad : pyval) (e : exn) :
  is_dict data = true ->
  build_dealer_map fr data = Return dm ->
  field data "inventory" (PList []) = PList (before ++ bad :: after) ->
  List.Forall (fun item => snd (item_rows fr dm item) = Return tt) before ->
  snd (item_rows fr dm bad) = Raise e ->
  iter_inventory_rows fr data
  = ((flat_map (fun item => fst (item_rows fr dm item)) before
      ++ fst (item_rows fr dm bad))%list,
     Raise e).
Proof.
  intros Hdata Hdm Hinv Hbefore Hbad.
  unfold iter_inventory_rows. rewrite Hdm. cbn [lift gen_bind app].
  rewrite (py_get_is_dict data _ _ Hdata), Hinv. cbn [lift gen_bind app py_iter].
  rewrite for_each_app.
  rewrite (for_each_all_return (item_rows fr dm)
             (fun item => fst (item_rows fr dm item)) before).
  - cbn [for_each gen_bind].
    destruct (item_rows fr dm bad) as [rows res]. cbn [fst snd] in *. subst res.
    reflexivity.
  - eapply List.Forall_impl; [|exact Hbefore].
    intros item Hitem. cbn beta in *.
    destruct (item_rows fr dm item) as [rows [[]|e']]; [reflexivity | discriminate Hitem].
Qed.

Lemma rows_until_failure_witness :
  exists dm : gmap string pyval,
    iter_inventory_rows no_float broken_response
    = ((flat_map (fun item => fst (item_rows no_float dm item)) [item_of_a]
        ++ fst (item_rows no_float dm item_null_vins))%list,
       Raise TypeError).
Proof.
  destruct (build_dealer_map_shaped no_float broken_response eq_refl eq_refl)
    as (dm & Hdm & Hlook).
  exists dm.
  assert (Hdicts : forall k v, dm !! k = Some v -> is_dict v = true).
  { intros k v Hk. rewrite Hlook in Hk.
    destruct (last_dealer no_float k (dealers_of broken_response)); [|discriminate Hk].
    injection Hk as <-. reflexivity. }
  apply (rows_until_failure no_float broken_response dm [item_of_a] [item_of_a]
           item_null_vins TypeError eq_refl Hdm eq_refl).
  - constructor; [|constructor].
    rewrite (item_rows_shaped no_float dm item_of_a Hdicts eq_refl). reflexivity.
  - rewrite (item_rows_vins_not_iterable no_float dm item_null_vins TypeError Hdicts
               eq_refl eq_refl eq_refl).
    reflexivity.
Defined.

(** The rows of that response: the two of the first item, then the
    exception of the second; the third item gives nothing. *)
Example broken_response_rows :
  map vin (fst (iter_inventory_rows no_float broken_response)) = [PStr "X1"; PStr "X2"]
  /\ snd (iter_inventory_rows no_float broken_response) = Raise TypeError.
Proof. split; vm_compute; reflexivity. Qed.

(** X9. The rows depend on the dealers only through the records under the
    keys of the items: two responses of the API's shape with the same
    inventory, whose dealer lists give the same last dealer record for
    every item's key, yield the same rows.  Dealers without inventory, added
    or removed, change nothing. *)
Theorem rows_ignore_other_dealers (fr : spec_float -> string) (data data' : pyval) :
  response_shaped fr data = true ->
  response_shaped fr data' = true ->
  inventory_items data = inventory_items data' ->
  List.Forall
    (fun item =>
       option_map dealer_record (last_dealer fr (dealer_key fr item) (dealers_of data))
       = option_map dealer_record (last_dealer fr (dealer_key fr item) (dealers_of data')))
    (inventory_items data) ->
  iter_inventory_rows fr data = iter_inventory_rows fr data'.
Proof.
  intros Hshape Hshape' Hinv Hsame.
  destruct (iter_inventory_rows_shaped fr data Hshape) as (dm & _ & Hlook & _ & ->).
  destruct (iter_inventory_rows_shaped fr data' Hshape') as (dm' & _ & Hlook' & _ & ->).
  rewrite <- Hinv. f_equal. apply flat_map_agree.
  eapply List.Forall_impl; [|exact Hsame].
  intros item Hitem. cbn beta in *. unfold joined.
  rewrite Hlook, Hlook', Hitem. reflexivity.
Qed.

Lemma rows_ignore_other_dealers_witness :
  iter_inventory_rows no_float two_dealers = iter_inventory_rows no_float one_dealer.
Proof.
  apply (rows_ignore_other_dealers no_float two_dealers one_dealer);
    try reflexivity.
  repeat constructor.
Defined.

(** ** [harvesine] and [driving_time]: signs and infinities *)

Lemma binary_round_aux_sign (s : bool) (m e : Z) (l : location) :
  sign_bit (binary_round_aux prec emax s m e l) = true -> s = true.
Proof.
  unfold binary_round_aux.
  destruct (shr_fexp prec emax m e l) as [mrs' e'].
  destruct (shr_fexp prec emax _ e' loc_Exact) as [mrs'' e''].
  destruct (shr_m mrs''); [intros H; exact H | | discriminate].
  destruct (Z.leb e'' (emax - prec)); intros H; exact H.
Qed.

Lemma not_negative_sign (f : spec_float) : sign_bit f = false -> not_negative f = true.
Proof. destruct f as [s|s| |s m e]; simpl; try (intros ->); reflexivity. Qed.

Lemma not_negative_zero (s : bool) : not_negative (S754_zero s) = true.
Proof. reflexivity. Qed.

(** A square root has a negative sign only as the root of minus zero. *)
Lemma SF64sqrt_sign (a : spec_float) :
  sign_bit (SF64sqrt a) = true -> a = S754_zero true.
Proof.
  unfold SF64sqrt. destruct a as [s|s| |s m e]; cbn [SFsqrt].
  - destruct s; [reflexivity | discriminate].
  - destruct s; discriminate.
  - discriminate.
  - destruct s; [discriminate|].
    destruct (SFsqrt_core_binary prec emax (Z.pos m) e) as [[mz ez] lz].
    intros H. apply binary_round_aux_sign in H. discriminate H.
Qed.

Lemma math_1_return (func : spec_float -> spec_float) (x r : spec_float) :
  math_1 func x = Return r -> r = func x.
Proof.
  unfold math_1.
  destruct (is_nan (func x) && negb (is_nan x)); [discriminate|].
  destruct (is_inf (func x) && is_finite x); [discriminate|].
  intros [= <-]. reflexivity.
Qed.

Lemma SFabs_not_negative (f : spec_float) : not_negative (SFabs f) = true.
Proof. destruct f; reflexivity. Qed.

Lemma copysign_not_negative (x y : spec_float) :
  sign_bit y = false -> not_negative (copysign x y) = true.
Proof. intros Hy. unfold copysign. rewrite Hy. apply SFabs_not_negative. Qed.

(** The angle [harvesine] takes from the two square roots is not
    negative. *)
Lemma angle_not_negative (M : libm) (a : spec_float) :
  atan2_sign M ->
  not_negative (m_atan2 M (SF64sqrt a) (SF64sqrt (SF64sub SF_one a))) = true.
Proof.
  intros Hatan.
  destruct (sign_bit (SF64sqrt a)) eqn:Hy.
  - apply SF64sqrt_sign in Hy. subst a. reflexivity.
  - unfold m_atan2.
    destruct (is_nan _ || is_nan _); [reflexivity|].
    destruct (is_inf (SF64sqrt a)).
    { destruct (is_inf _); [destruct (negb _)|]; apply copysign_not_negative; exact Hy. }
    destruct (is_inf _ || is_zero _).
    { destruct (negb _); apply copysign_not_negative; exact Hy. }
    apply not_negative_sign.
    destruct (sign_bit (c_atan2 M _ _)) eqn:Hs; [|reflexivity].
    apply Hatan in Hs. congruence.
Qed.

Lemma SF64mul_not_negative (sc : positive) (ec : Z) (z : spec_float) :
  not_negative z = true ->
  not_negative (SF64mul (S754_finite false sc ec) z) = true.
Proof.
  destruct z as [s|s| |s m e]; try reflexivity.
  - destruct s; [discriminate | reflexivity].
  - destruct s; [discriminate|]. intros _. apply not_negative_sign.
    unfold SF64mul. cbn [SFmul xorb].
    destruct (sign_bit (binary_round_aux prec emax false _ _ loc_Exact)) eqn:Hs;
      [|reflexivity].
    apply binary_round_aux_sign in Hs. discriminate Hs.
Qed.

Lemma distance_of_a_not_negative (M : libm) (a distance : spec_float) :
  atan2_sign M ->
  distance_of_a M a = Return distance -> not_negative distance = true.
Proof.
  intros Hatan. unfold distance_of_a.
  destruct (math_sqrt a) as [y|e] eqn:Hy; [cbn [bind] | discriminate].
  destruct (math_sqrt (SF64sub SF_one a)) as [x|e] eqn:Hx; [cbn [bind] | discriminate].
  apply math_1_return in Hy, Hx. subst x y.
  destruct (math_atan2 M _ _) as [angle|e] eqn:Hangle; [cbn [bind] | discriminate].
  intros [= <-].
  assert (Hnn : not_negative angle = true).
  { unfold math_atan2 in Hangle.
    destruct (is_nan _ && negb _ && negb _); [discriminate Hangle|].
    destruct (is_inf _ && is_finite _ && is_finite _); [discriminate Hangle|].
    injection Hangle as <-. apply angle_not_negative. exact Hatan. }
  unfold R_miles, SF_two. apply SF64mul_not_negative, SF64mul_not_negative. exact Hnn.
Qed.

Lemma harvesine_return_inv (M : libm) (lat1 lon1 lat2 lon2 distance : spec_float) :
  harvesine M lat1 lon1 lat2 lon2 = Return distance ->
  exists a : spec_float, distance_of_a M a = Return distance.
Proof.
  rewrite harvesine_unfold.
  destruct (sin2_half M _) as [s1|e]; [cbn [bind] | discriminate].
  destruct (math_cos M _) as [c1|e]; [cbn [bind] | discriminate].
  destruct (math_cos M _) as [c2|e]; [cbn [bind] | discriminate].
  destruct (sin2_half M _) as [s2|e]; [cbn [bind] | discriminate].
  eauto.
Qed.

(** X10. [harvesine] never returns a distance below zero: whatever the
    four floats, a distance it returns is zero, positive, infinite or a
    NaN (the arc tangent of the C library has the sign of its first
    argument). *)
Theorem harvesine_not_negative (M : libm) (lat1 lon1 lat2 lon2 distance : spec_float) :
  atan2_sign M ->
  harvesine M lat1 lon1 lat2 lon2 = Return distance ->
  SFltb distance (S754_zero false) = false.
Proof.
  intros Hatan Hret.
  destruct (harvesine_return_inv M _ _ _ _ _ Hret) as (a & Ha).
  pose proof (distance_of_a_not_negative M a distance Hatan Ha) as Hnn.
  unfold not_negative in Hnn. apply negb_true_iff in Hnn. exact Hnn.
Qed.

Lemma table_atan2_sign : atan2_sign table_libm.
Proof. intros y x H. exact H. Qed.

Lemma harvesine_not_negative_witness :
  SFltb (S754_finite false 7580676618811965 (-40)) (S754_zero false) = false.
Proof.
  apply (harvesine_not_negative table_libm austin_lat austin_lon SF_8 SF_0).
  - exact table_atan2_sign.
  - vm_compute. reflexivity.
Defined.

Lemma SF64div_not_negative (d speed : spec_float) :
  not_negative d = true ->
  SFltb (S754_zero false) speed = true ->
  not_negative (SF64div d speed) = true.
Proof.
  intros Hd Hspeed.
  destruct speed as [s|s| |s m e]; try discriminate Hspeed;
    destruct s; try discriminate Hspeed;
    destruct d as [sd|sd| |sd md ed]; try reflexivity;
    try (destruct sd; [discriminate Hd | reflexivity]).
  destruct sd; [discriminate Hd|]. apply not_negative_sign.
  unfold SF64div. cbn [SFdiv xorb].
  destruct (SFdiv_core_binary prec emax (Z.pos md) ed (Z.pos m) e) as [[mz ez] lz].
  destruct (sign_bit (binary_round_aux prec emax false mz ez lz)) eqn:Hs; [|reflexivity].
  apply binary_round_aux_sign in Hs. discriminate Hs.
Qed.

(** X11. [driving_time] with a positive speed never returns a time below
    zero, and with a speed of zero it never returns: it raises
    [ZeroDivisionError] when [harvesine] has returned, and the exception
    of [harvesine] otherwise. *)
Theorem driving_time_not_negative (M : libm)
    (lat1 lon1 lat2 lon2 speed_mph : spec_float) :
  atan2_sign M ->
  (forall time : spec_float,
      SFltb (S754_zero false) speed_mph = true ->
      driving_time M lat1 lon1 lat2 lon2 speed_mph = Return time ->
      SFltb time (S754_zero false) = false)
  /\ (is_zero speed_mph = true ->
      match harvesine M lat1 lon1 lat2 lon2 with
      | Return _ => driving_time M lat1 lon1 lat2 lon2 speed_mph = Raise ZeroDivisionError
      | Raise e => driving_time M lat1 lon1 lat2 lon2 speed_mph = Raise e
      end).
Proof.
  intros Hatan. unfold driving_time. split.
  - intros time Hspeed.
    destruct (harvesine M lat1 lon1 lat2 lon2) as [d|e] eqn:Hd; [cbn [bind] | discriminate].
    destruct (harvesine_return_inv M _ _ _ _ _ Hd) as (a & Ha).
    pose proof (distance_of_a_not_negative M a d Hatan Ha) as Hnn.
    unfold float_div. destruct (is_zero speed_mph); [discriminate|].
    intros [= <-].
    pose proof (SF64div_not_negative d speed_mph Hnn Hspeed) as Ht.
    unfold not_negative in Ht. apply negb_true_iff in Ht. exact Ht.
  - intros Hzero.
    destruct (harvesine M lat1 lon1 lat2 lon2) as [d|e]; cbn [bind]; [|reflexivity].
    unfold float_div. rewrite Hzero. reflexivity.
Qed.

Lemma driving_time_not_negative_witness :
  driving_time table_libm austin_lat austin_lon SF_8 SF_0 (S754_zero false)
  = Raise ZeroDivisionError.
Proof.
  exact (proj2 (driving_time_not_negative table_libm austin_lat austin_lon SF_8 SF_0
                  (S754_zero false) table_atan2_sign) eq_refl).
Defined.

Lemma radians_infinity (s : bool) : radians (S754_infinity s) = S754_infinity s.
Proof. destruct s; reflexivity. Qed.

Lemma sin2_half_invalid (M : libm) (d : spec_float) :
  trig_invalid M ->
  is_finite d = false ->
  sin2_half M d = Raise ValueError \/ sin2_half M d = Return S754_nan.
Proof.
  intros (Hsin & _ & Hnan) Hd. unfold sin2_half. rewrite float_div_two. cbn [bind].
  destruct d as [s|s| |s m e]; try discriminate Hd.
  - left. change (SF64div (S754_infinity s) SF_two) with (S754_infinity (xorb s false)).
    unfold math_sin, math_1. rewrite Hsin. reflexivity.
  - right. change (SF64div S754_nan SF_two) with S754_nan.
    unfold math_sin, math_1. rewrite Hnan. reflexivity.
Qed.

Lemma math_cos_infinity (M : libm) (s : bool) :
  trig_invalid M -> math_cos M (S754_infinity s) = Raise ValueError.
Proof.
  intros (_ & Hcos & _). unfold math_cos, math_1. rewrite Hcos. reflexivity.
Qed.

Lemma SF64sub_infinity (x y : spec_float) :
  is_inf x = true \/ is_inf y = true -> is_finite (SF64sub x y) = false.
Proof.
  intros [H|H]; destruct x as [sx|sx| |sx mx ex], y as [sy|sy| |sy my ey];
    try discriminate H; try reflexivity; destruct sx, sy; reflexivity.
Qed.

(** X12. An infinite latitude is a [ValueError]: when the latitude of
    either point is an infinity, [harvesine] raises [ValueError] whatever
    the other coordinates (the sine and cosine of the C library are NaN on
    an infinity). *)
Theorem harvesine_infinite_latitude (M : libm) (lat1 lon1 lat2 lon2 : spec_float) :
  trig_invalid M ->
  is_inf lat1 = true \/ is_inf lat2 = true ->
  harvesine M lat1 lon1 lat2 lon2 = Raise ValueError.
Proof.
  intros Htrig Hinf. rewrite harvesine_unfold.
  assert (Hd : is_finite (SF64sub (radians lat2) (radians lat1)) = false).
  { apply SF64sub_infinity.
    destruct Hinf as [H|H]; [right | left];
      [destruct lat1 | destruct lat2]; try discriminate H;
      rewrite radians_infinity; reflexivity. }
  destruct (sin2_half_invalid M _ Htrig Hd) as [-> | ->]; [reflexivity|].
  cbn [bind].
  destruct Hinf as [H|H].
  - destruct lat1 as [s|s| |s m e]; try discriminate H.
    rewrite radians_infinity, (math_cos_infinity M s Htrig). reflexivity.
  - destruct lat2 as [s|s| |s m e]; try discriminate H.
    rewrite radians_infinity, (math_cos_infinity M s Htrig).
    unfold math_cos.
    destruct (math_1_errors (c_cos M) (radians lat1)) as [-> | ->]; reflexivity.
Qed.

Lemma strict_trig_invalid : trig_invalid strict_libm.
Proof. repeat split; intros []; reflexivity. Qed.

Lemma harvesine_infinite_latitude_witness :
  harvesine strict_libm austin_lat austin_lon (S754_infinity false) SF_0
  = Raise ValueError.
Proof.
  apply (harvesine_infinite_latitude strict_libm).
  - exact strict_trig_invalid.
  - right. reflexivity.
Defined.

(** ** Strings *)

Lemma append_assoc (a b c : string) : (a ++ b) ++ c = a ++ (b ++ c).
Proof.
  induction a as [|x a IH]; [reflexivity|].
  exact (f_equal (String x) IH).
Qed.

Lemma append_length (a b : string) :
  String.length (a ++ b) = (String.length a + String.length b)%nat.
Proof.
  induction a as [|x a IH]; [reflexivity|].
  change (S (String.length (a ++ b)) = S (String.length a + String.length b)).
  rewrite IH. reflexivity.
Qed.

Lemma append_inv_head (a b c : string) : a ++ b = a ++ c -> b = c.
Proof.
  induction a as [|x a IH]; intros H; [exact H|].
  apply IH. change (String x (a ++ b) = String x (a ++ c)) in H.
  injection H as H. exact H.
Qed.

Lemma append_inv_tail (c : string) :
  forall a b : string, a ++ c = b ++ c -> a = b.
Proof.
  induction a as [|x a IH]; intros b H.
  - destruct b as [|y b]; [reflexivity|].
    apply (f_equal String.length) in H.
    change (String.length c = S (String.length (b ++ c))) in H.
    rewrite append_length in H. lia.
  - destruct b as [|y b].
    + apply (f_equal String.length) in H.
      change (S (String.length (a ++ c)) = String.length c) in H.
      rewrite append_length in H. lia.
    + change (String x (a ++ c) = String y (b ++ c)) in H.
      injection H as -> H. f_equal. apply IH. exact H.
Qed.

(** Two texts cut at the first occurrence of a character. *)
Lemma split_at_first (sep : ascii) :
  forall a a' r r' : string,
    contains sep a = false -> contains sep a' = false ->
    a ++ String sep r = a' ++ String sep r' -> a = a' /\ r = r'.
Proof.
  induction a as [|x a IH]; intros a' r r' Ha Ha' H.
  - destruct a' as [|y a'].
    + injection H as H. split; [reflexivity | exact H].
    + change (String sep r = String y (a' ++ String sep r')) in H.
      injection H as <- _. simpl in Ha'. rewrite Ascii.eqb_refl in Ha'. discriminate Ha'.
  - destruct a' as [|y a'].
    + change (String x (a ++ String sep r) = String sep r') in H.
      injection H as -> _. simpl in Ha. rewrite Ascii.eqb_refl in Ha. discriminate Ha.
    + change (String x (a ++ String sep r) = String y (a' ++ String sep r')) in H.
      injection H as -> H. simpl in Ha, Ha'.
      apply orb_false_iff in Ha as [_ Ha]. apply orb_false_iff in Ha' as [_ Ha'].
      destruct (IH a' r r' Ha Ha' H) as [-> ->]. split; reflexivity.
Qed.

Lemma contains_append (sep : ascii) (a b : string) :
  contains sep (a ++ b) = contains sep a || contains sep b.
Proof.
  induction a as [|x a IH]; [reflexivity|].
  change (Ascii.eqb sep x || contains sep (a ++ b)
          = Ascii.eqb sep x || contains sep a || contains sep b).
  rewrite IH, orb_assoc. reflexivity.
Qed.

(** Two texts cut at the last occurrence of a character. *)
Lemma split_at_last (sep : ascii) :
  forall a a' m m' : string,
    contains sep m = false -> contains sep m' = false ->
    a ++ String sep m = a' ++ String sep m' -> a = a' /\ m = m'.
Proof.
  induction a as [|x a IH]; intros a' m m' Hm Hm' H.
  - destruct a' as [|y a'].
    + injection H as H. split; [reflexivity | exact H].
    + change (String sep m = String y (a' ++ String sep m')) in H.
      injection H as _ H. rewrite H, contains_append in Hm. simpl in Hm.
      rewrite Ascii.eqb_refl, orb_true_r in Hm. discriminate Hm.
  - destruct a' as [|y a'].
    + change (String x (a ++ String sep m) = String sep m') in H.
      injection H as _ H. rewrite <- H, contains_append in Hm'. simpl in Hm'.
      rewrite Ascii.eqb_refl, orb_true_r in Hm'. discriminate Hm'.
    + change (String x (a ++ String sep m) = String y (a' ++ String sep m')) in H.
      injection H as -> H.
      destruct (IH a' m m' Hm Hm' H) as [-> ->]. split; reflexivity.
Qed.

Lemma all_chars_contains (p : ascii -> bool) (c : ascii) (s : string) :
  all_chars p s = true -> p c = false -> contains c s = false.
Proof.
  induction s as [|x s IH]; simpl; [reflexivity|].
  intros H Hc. apply andb_true_iff in H as [Hx Hs].
  rewrite (IH Hs Hc), orb_false_r.
  destruct (Ascii.eqb_spec c x) as [->|_]; [congruence | reflexivity].
Qed.

(** The decimal text of an integer holds digits and a minus sign only, and
    determines the integer. *)
Lemma str_of_Z_chars (z : Z) (c : ascii) :
  is_ascii_digit c = false -> c <> "-"%char -> contains c (str_of_Z z) = false.
Proof.
  intros Hc Hminus.
  assert (Hpos : forall p, contains c (str_of_Z (Z.pos p)) = false).
  { intros p. apply (all_chars_contains is_ascii_digit); [apply str_of_Z_digits | exact Hc]. }
  destruct z as [|p|p].
  - apply (all_chars_contains is_ascii_digit); [reflexivity | exact Hc].
  - apply Hpos.
  - change (str_of_Z (Z.neg p)) with (String "-" (str_of_Z (Z.pos p))).
    simpl. rewrite Hpos, orb_false_r. apply Ascii.eqb_neq. exact Hminus.
Qed.

Lemma str_of_Z_inj (z z' : Z) : str_of_Z z = str_of_Z z' -> z = z'.
Proof.
  unfold str_of_Z. intros H. apply DecimalZ.to_int_inj.
  apply (f_equal NilZero.int_of_string) in H.
  assert (Hnn : forall n, Z.to_int n <> Decimal.Pos Decimal.Nil
                          /\ Z.to_int n <> Decimal.Neg Decimal.Nil).
  { intros [|p|p]; split; simpl; try discriminate;
      intros [= Hp]; exact (DecimalPos.Unsigned.to_uint_nonnil p Hp). }
  rewrite !NilZero.isi in H by apply Hnn. injection H as H. exact H.
Qed.

(** X13. The URL determines the query: two calls of [build_url] that give
    the same URL have the same zip code, the same number of dealers and the
    same year, whatever characters the zip code holds. *)
Theorem build_url_injective (zip_code zip_code' : string)
    (max_dealers max_dealers' year year' : Z) :
  build_url zip_code max_dealers year = build_url zip_code' max_dealers' year' ->
  zip_code = zip_code' /\ max_dealers = max_dealers' /\ year = year'.
Proof.
  unfold build_url. intros H.
  apply append_inv_head, append_inv_head in H.
  change ("&modelGroup=odyssey" ++ ?x) with (String "&" ("modelGroup=odyssey" ++ x)) in H.
  apply split_at_first in H as [Hyear H];
    try (apply str_of_Z_chars; [reflexivity | discriminate]).
  apply str_of_Z_inj in Hyear.
  apply append_inv_head, append_inv_head in H.
  rewrite <- !(append_assoc _ _ "&preferredDealerId=&showOnlineRetailingURL=true") in H.
  apply append_inv_tail in H.
  change "&maxDealers=" with ("&maxDealers" ++ String "=" "") in H.
  rewrite !(append_assoc "&maxDealers") in H.
  change (String "=" "" ++ ?x) with (String "=" x) in H.
  rewrite <- !append_assoc in H.
  apply split_at_last in H as [Hzip Hmax];
    try (apply str_of_Z_chars; [reflexivity | discriminate]).
  apply append_inv_tail in Hzip. apply str_of_Z_inj in Hmax.
  repeat split; assumption.
Qed.

Lemma build_url_injective_witness :
  "78723" = "78723" /\ 50 = 50 /\ 2025 = 2025.
Proof.
  apply (build_url_injective "78723" "78723" 50 50 2025 2025). reflexivity.
Defined.

(** ** [load_cookie] *)

Lemma lstrip_split (s : string) :
  exists pre, s = pre ++ lstrip s /\ all_chars isspace pre = true.
Proof.
  induction s as [|c s [pre [IH Hpre]]]; [exists ""; split; reflexivity|].
  cbn [lstrip]. destruct (isspace c) eqn:Hc.
  - exists (String c pre). split.
    + exact (f_equal (String c) IH).
    + cbn [all_chars]. rewrite Hc, Hpre. reflexivity.
  - exists "". split; reflexivity.
Qed.

Lemma rstrip_split (s : string) :
  exists post, s = rstrip s ++ post /\ all_chars isspace post = true.
Proof.
  induction s as [|c s [post [IH Hpost]]]; [exists ""; split; reflexivity|].
  cbn [rstrip]. destruct (rstrip s) as [|k kept] eqn:Hkept.
  - destruct (isspace c) eqn:Hc.
    + exists (String c post). split.
      * exact (f_equal (String c) IH).
      * cbn [all_chars]. rewrite Hc, Hpost. reflexivity.
    + exists post. split; [exact (f_equal (String c) IH) | exact Hpost].
  - exists post. split; [exact (f_equal (String c) IH) | exact Hpost].
Qed.

Lemma lstrip_starts (s : string) : starts_with_space (lstrip s) = false.
Proof.
  induction s as [|c s IH]; [reflexivity|].
  cbn [lstrip]. destruct (isspace c) eqn:Hc; [exact IH | exact Hc].
Qed.

Lemma rstrip_ends (s : string) : ends_with_space (rstrip s) = false.
Proof.
  induction s as [|c s IH]; [reflexivity|].
  cbn [rstrip]. destruct (rstrip s) as [|k kept].
  - destruct (isspace c) eqn:Hc; [reflexivity | exact Hc].
  - exact IH.
Qed.

Lemma lstrip_ends (s : string) :
  ends_with_space s = false -> ends_with_space (lstrip s) = false.
Proof.
  induction s as [|c s IH]; [reflexivity|].
  intros H. cbn [lstrip]. destruct (isspace c) eqn:Hc; [|exact H].
  apply IH. destruct s; [cbn in H; congruence | exact H].
Qed.

Lemma lstrip_id (s : string) : starts_with_space s = false -> lstrip s = s.
Proof.
  destruct s as [|c s]; [reflexivity|].
  cbn [starts_with_space lstrip]. intros ->. reflexivity.
Qed.

Lemma rstrip_id (s : string) : ends_with_space s = false -> rstrip s = s.
Proof.
  induction s as [|c s IH]; [reflexivity|].
  intros H. cbn [rstrip]. destruct s as [|d s].
  - cbn in H. cbn. rewrite H. reflexivity.
  - rewrite (IH H). reflexivity.
Qed.

Lemma rstrip_blank (s : string) : all_chars isspace s = true -> rstrip s = "".
Proof.
  induction s as [|c s IH]; [reflexivity|].
  cbn [all_chars rstrip]. intros H. apply andb_true_iff in H as [Hc Hs].
  rewrite (IH Hs), Hc. reflexivity.
Qed.

Lemma all_chars_append (p : ascii -> bool) (a b : string) :
  all_chars p (a ++ b) = all_chars p a && all_chars p b.
Proof.
  induction a as [|x a IH]; [reflexivity|].
  change (p x && all_chars p (a ++ b) = p x && all_chars p a && all_chars p b).
  rewrite IH, andb_assoc. reflexivity.
Qed.

Lemma strip_empty_blank (s : string) : strip s = "" -> all_chars isspace s = true.
Proof.
  unfold strip. intros H.
  destruct (rstrip_split s) as [post [Hs Hpost]].
  destruct (lstrip_split (rstrip s)) as [pre [Hr Hpre]].
  rewrite H in Hr. rewrite Hs, Hr, !all_chars_append, Hpre, Hpost. reflexivity.
Qed.

Lemma strip_split (s : string) :
  exists pre post, s = pre ++ strip s ++ post
    /\ all_chars isspace pre = true /\ all_chars isspace post = true.
Proof.
  unfold strip.
  destruct (rstrip_split s) as [post [Hs Hpost]].
  destruct (lstrip_split (rstrip s)) as [pre [Hr Hpre]].
  exists pre, post. split; [|split; assumption].
  rewrite <- append_assoc, <- Hr. exact Hs.
Qed.

Lemma strip_trimmed (s : string) :
  starts_with_space (strip s) = false /\ ends_with_space (strip s) = false.
Proof.
  unfold strip. split; [apply lstrip_starts | apply lstrip_ends, rstrip_ends].
Qed.

Lemma load_cookie_inv (file : cookie_file) (cookie : string) :
  load_cookie file = Cookie cookie ->
  exists content, file = Holds content /\ cookie = strip content /\ cookie <> "".
Proof.
  destruct file as [| |content]; try discriminate.
  unfold load_cookie. cbv zeta. intros H. exists content.
  destruct (strip content) as [|c s] eqn:Hstrip.
  - cbn in H. discriminate H.
  - cbn in H. injection H as <-. repeat split. discriminate.
Qed.

(** X14. When [load_cookie] returns, the file exists and its text is the
    returned cookie with white space before and after it and nothing else;
    the cookie is not empty and neither starts nor ends with white space. *)
Theorem load_cookie_returns (file : cookie_file) (cookie : string) :
  load_cookie file = Cookie cookie ->
  exists content pre post,
    file = Holds content /\ content = pre ++ cookie ++ post
    /\ all_chars isspace pre = true /\ all_chars isspace post = true
    /\ cookie <> ""
    /\ starts_with_space cookie = false /\ ends_with_space cookie = false.
Proof.
  intros H. apply load_cookie_inv in H as [content [-> [-> Hne]]].
  destruct (strip_split content) as [pre [post [Hs [Hpre Hpost]]]].
  destruct (strip_trimmed content) as [Hstart Hend].
  exists content, pre, post. repeat split; assumption.
Qed.

Lemma load_cookie_returns_witness :
  exists content pre post,
    Holds (" sid=1; t=a b" ++ String "010" "") = Holds content
    /\ content = pre ++ "sid=1; t=a b" ++ post
    /\ all_chars isspace pre = true /\ all_chars isspace post = true
    /\ "sid=1; t=a b" <> ""
    /\ starts_with_space "sid=1; t=a b" = false
    /\ ends_with_space "sid=1; t=a b" = false.
Proof.
  apply (load_cookie_returns (Holds (" sid=1; t=a b" ++ String "010" ""))).
  reflexivity.
Defined.

(** X15. [load_cookie] raises [FileNotFoundError] only when the file is
    absent, and [IOError] only when the file cannot be read or holds nothing
    but white space: the [ValueError] of the empty cookie never leaves the
    function. *)
Theorem load_cookie_raises (file : cookie_file) :
  (load_cookie file = FileNotFoundError <-> file = NoFile)
  /\ (load_cookie file = IOError <->
      file = Unreadable
      \/ exists content, file = Holds content /\ all_chars isspace content = true).
Proof.
  split; split.
  - destruct file as [| |content]; try discriminate; [reflexivity|].
    unfold load_cookie. cbv zeta. destruct (negb _); discriminate.
  - intros ->. reflexivity.
  - destruct file as [| |content]; try discriminate; [left; reflexivity|].
    intros H. right. exists content. split; [reflexivity|].
    apply strip_empty_blank. unfold load_cookie in H. cbv zeta in H.
    destruct (strip content); [reflexivity | cbn in H; discriminate H].
  - intros [-> | [content [-> Hblank]]]; [reflexivity|].
    unfold load_cookie, strip. rewrite (rstrip_blank _ Hblank). reflexivity.
Qed.

Lemma load_cookie_raises_witness :
  load_cookie (Holds (String "009" (String "010" " "))) = IOError.
Proof.
  apply (proj2 (proj2 (load_cookie_raises (Holds (String "009" (String "010" " ")))))).
  right. eexists. split; reflexivity.
Defined.

(** X16. A cookie that [load_cookie] returned, written back as the whole
    text of the file, is loaded again unchanged. *)
Theorem load_cookie_round_trip (file : cookie_file) (cookie : string) :
  load_cookie file = Cookie cookie ->
  load_cookie (Holds cookie) = Cookie cookie.
Proof.
  intros H. apply load_cookie_inv in H as [content [-> [-> Hne]]].
  destruct (strip_trimmed content) as [Hstart Hend].
  unfold load_cookie. cbv zeta. unfold strip at 1 3.
  rewrite (rstrip_id _ Hend), (lstrip_id _ Hstart).
  destruct (strip content); [contradiction Hne; reflexivity | reflexivity].
Qed.

Lemma load_cookie_round_trip_witness :
  load_cookie (Holds "sid=1; t=a b") = Cookie "sid=1; t=a b".
Proof.
  apply (load_cookie_round_trip (Holds (" sid=1; t=a b" ++ String "010" ""))).
  reflexivity.
Defined.
